(** * The Flask extension of rockcraft: merge rules and root snippet

    A shallow embedding of [rockcraft/extensions/flask.py].  Python values
    are modelled as a tree type [Value]; a [dict] keyed by strings is a
    [gmap string Value], whose equality is extensional like Python's [==]
    on dicts.  A raised exception is the [Err] case of [Result]. *)

From stdpp Require Import gmap strings list fin_maps fin_sets.

Set Warnings "-register-all,-clear-no-such-hyp".

(** ** Values of a configuration document *)

(** Scalars that a YAML document carries. *)
Inductive Scalar :=
| SStr (s : string)
| SInt (n : Z)
| SNone.

Global Instance Scalar_eq_dec : EqDecision Scalar.
Proof. solve_decision. Defined.

(** A value is a scalar, a Python [list] or a Python [dict]. *)
Inductive Value :=
| VScalar (s : Scalar)
| VList (l : list Value)
| VMap (m : gmap string Value).

(** Python's [==] on values: structural, and on dicts independent of the
    insertion order. *)
Global Instance Value_eq_dec : EqDecision Value.
Proof.
  refine (fix go (a b : Value) {struct a} : Decision (a = b) :=
    let _ : EqDecision Value := @go in
    match a, b with
    | VScalar s1, VScalar s2 => cast_if (decide (s1 = s2))
    | VList l1, VList l2 => cast_if (decide (l1 = l2))
    | VMap m1, VMap m2 => cast_if (decide (m1 = m2))
    | _, _ => right _
    end); congruence.
Defined.

Definition VStr (s : string) : Value := VScalar (SStr s).

(** Number of constructors of a value; the measure of the induction
    principle on values. *)
Fixpoint vsize (v : Value) : nat :=
  match v with
  | VScalar _ => 1
  | VList l => S (foldr (λ x n, vsize x + n) 0 l)
  | VMap m => S (map_fold (λ _ x n, vsize x + n) 0 m)
  end.

(** ** Exceptions *)

Inductive Error :=
| ConflictError
| TypeMismatchError
| UnsupportedBaseError
| ExperimentalNotEnabledError
| ValueError (msg : string)
| AttributeError
| KeyError (key : string)
| RecursionError.

Global Instance Error_eq_dec : EqDecision Error.
Proof. solve_decision. Defined.

Inductive Result (A : Type) :=
| OK (a : A)
| Err (e : Error).
Global Arguments OK {A} a.
Global Arguments Err {A} e.

Definition bind {A B : Type} (r : Result A) (k : A → Result B) : Result B :=
  match r with
  | OK a => k a
  | Err e => Err e
  end.

Notation "'do' x <- r ; k" := (bind r (λ x, k))
  (at level 10, x name, r at level 100, k at level 200).

Definition is_OK {A : Type} (r : Result A) : Prop := ∃ a, r = OK a.

Definition is_OKb {A : Type} (r : Result A) : bool :=
  match r with OK _ => true | Err _ => false end.

Definition rmap {A B : Type} (f : A → B) (r : Result A) : Result B :=
  do a <- r; OK (f a).

(** ** Strings and paths *)

(** Python's [str.startswith] and [str.endswith]. *)
Definition startswith (s pre : string) : bool := String.prefix pre s.

Definition endswith (s suffix : string) : bool :=
  bool_decide (String.length suffix ≤ String.length s)
  && String.eqb
       (String.substring (String.length s - String.length suffix)
          (String.length suffix) s)
       suffix.

(** [os.path.join] of [posixpath] on two components. *)
Definition os_path_join (a b : string) : string :=
  if startswith b "/" then b
  else if bool_decide (a = "") || endswith a "/" then a +:+ b
  else a +:+ "/" +:+ b.

(** ** Insertion-ordered dictionaries

    A dict whose iteration order is observed ([list(d.values())]) is an
    association list in insertion order with unique keys. *)
Fixpoint odict_set {A : Type} (k : string) (v : A) (d : list (string * A))
    : list (string * A) :=
  match d with
  | [] => [(k, v)]
  | (k', v') :: d' =>
      if decide (k = k') then (k, v) :: d' else (k', v') :: odict_set k v d'
  end.

Definition odict_values {A : Type} (d : list (string * A)) : list A := d.*2.

(** The project directory as the extension sees it: whether
    [project_root / "requirements.txt"] exists, and [os.listdir]. *)
Record ProjectRoot := {
  requirements_txt_exists : bool;
  os_listdir : list string;
}.

(** ** class Flask *)

Module Flask.

(** The instance state: the document and the project directory. *)
Record t := mk {
  yaml_data : gmap string Value;
  project_root : ProjectRoot;
}.

Definition get_supported_bases : list string :=
  ["bare"; "ubuntu:20.04"; "ubuntu:22.04"].

Definition is_experimental (base : option string) : bool := true.

Definition get_part_snippet (self : t) : gmap string Value := ∅.

Definition get_parts_snippet (self : t) : gmap string Value := ∅.

(** A method of [dict] ([keys], [get], [update]) looked up on a value:
    only a dict has it. *)
Definition keys_of (v : Value) : Result (gmap string Value) :=
  match v with
  | VMap m => OK m
  | _ => Err AttributeError
  end.

Section Loop.

(** The loop of [_merge_part] does not look into the property values, so
    it is stated for any type of values. *)
Context {V : Type}.
Variable apply_extension_property : V → V → Result V.

(** The loop of [_merge_part], over the property names in the order the
    set yields them. *)
Fixpoint _merge_part_loop (properties : list string)
    (base_part new_part result : gmap string V) : Result (gmap string V) :=
  match properties with
  | [] => OK result
  | property_name :: rest =>
      match base_part !! property_name, new_part !! property_name with
      | Some b, None =>
          _merge_part_loop rest base_part new_part (<[property_name := b]> result)
      | None, Some n =>
          _merge_part_loop rest base_part new_part (<[property_name := n]> result)
      | Some b, Some n =>
          do v <- apply_extension_property b n;
          _merge_part_loop rest base_part new_part (<[property_name := v]> result)
      | None, None => Err (KeyError property_name)
      end
  end.

End Loop.

Section Merging.

(** [apply_extension_property] is imported from [_utils.py]; the methods
    below only call it. *)
Variable apply_extension_property : Value → Value → Result Value.

Definition _merge_part (base_part new_part : Value) : Result (gmap string Value) :=
  do b <- keys_of base_part;
  do n <- keys_of new_part;
  _merge_part_loop apply_extension_property (elements (dom b ∪ dom n)) b n ∅.

Definition _merge_existing_part (self : t) (part_name : string) (part_def : Value)
    : Result (gmap string Value) :=
  do parts <- match yaml_data self !! "parts" with
              | None => OK ∅
              | Some p => keys_of p
              end;
  let existing_part := default (VMap ∅) (parts !! part_name) in
  _merge_part existing_part part_def.

Definition ignores : list string := [".git"; "node_modules"; ".yarn"].

Definition source_files (root : ProjectRoot) : list string :=
  filter (λ f, (f ∉ ignores) ∧ (endswith f ".rock" = false)) (os_listdir root).

Definition renaming_map (root : ProjectRoot) : list (string * string) :=
  foldl (λ d f, odict_set f (os_path_join "srv/flask/app" f) d) [] (source_files root).

Definition install_app_part_name : string := "flask/install-app".
Definition dependencies_part_name : string := "flask/dependencies".

Definition install_app_part (root : ProjectRoot) : gmap string Value :=
  {[ "plugin" := VStr "dump";
     "source" := VStr ".";
     "organize" := VMap (list_to_map (prod_map id VStr <$> renaming_map root));
     "stage" := VList (VStr <$> odict_values (renaming_map root)) ]}.

Definition dependencies_part : gmap string Value :=
  {[ "plugin" := VStr "python";
     "stage-packages" := VList [VStr "python3-venv"];
     "source" := VStr ".";
     "python-packages" := VList [VStr "gunicorn"];
     "python-requirements" := VList [VStr "requirements.txt"] ]}.

Definition missing_requirements : string :=
  "missing requirements.txt file, " +:+
  "flask extension requires this file with flask specified as a dependency".

Definition _gen_new_parts (self : t) : Result (gmap string Value) :=
  if negb (requirements_txt_exists (project_root self)) then
    Err (ValueError missing_requirements)
  else
    do dependencies <-
      _merge_existing_part self dependencies_part_name (VMap dependencies_part);
    do install_app <-
      _merge_existing_part self install_app_part_name
        (VMap (install_app_part (project_root self)));
    OK {[ dependencies_part_name := VMap dependencies;
          install_app_part_name := VMap install_app ]}.

(** [copy.deepcopy] of a value is the value: values are trees. *)
Definition deepcopy (v : Value) : Value := v.

Definition get_root_snippet (self : t) : Result (gmap string Value) :=
  let snippet : gmap string Value := ∅ in
  let snippet :=
    if bool_decide ("run_user" ∉ dom (yaml_data self))
    then <["run_user" := VStr "_daemon_"]> snippet else snippet in
  let snippet :=
    if bool_decide ("build-base" ∉ dom (yaml_data self))
       && bool_decide (default (VStr "bare") (yaml_data self !! "base") = VStr "bare")
    then <["build-base" := VStr "ubuntu:22.04"]> snippet else snippet in
  let snippet :=
    if bool_decide ("platforms" ∉ dom (yaml_data self))
    then <["platforms" := VMap {[ "amd64" := VMap ∅ ]}]> snippet else snippet in
  let current_parts := deepcopy (default (VMap ∅) (yaml_data self !! "parts")) in
  (* the method [current_parts.update] is looked up before its argument
     is evaluated *)
  do current_parts <- keys_of current_parts;
  do new_parts <- _gen_new_parts self;
  let current_parts := new_parts ∪ current_parts in
  OK (<["parts" := VMap current_parts]> snippet).

End Merging.

End Flask.

(** ** The property merge ([apply_extension_property] of [_utils.py]) *)

(** First-occurrence deduplication of a sequence. *)
Fixpoint dedup (l : list Value) : list Value :=
  match l with
  | [] => []
  | x :: l' => x :: filter (λ y, y ≠ x) (dedup l')
  end.

(** Collects a mapping of results into a result: the mapping of the
    values when every entry is [OK], an error of one of the entries
    otherwise. *)
Definition collect (m : gmap string (Result Value)) : Result (gmap string Value) :=
  map_fold (λ k r acc, do acc' <- acc; do v <- r; OK (<[k:=v]> acc')) (OK ∅) m.

(** Modelled from the spec: the module [_utils.py] that defines
    [apply_extension_property] is not part of the sources at hand; this
    is the PropertyMerger of section 4.1.  Two scalars merge when equal
    and conflict otherwise, except that unequal strings of a property
    designated accumulative are concatenated; two sequences are
    concatenated and deduplicated; two mappings are merged key by key;
    any other pairing is a type mismatch. *)
Fixpoint PropertyMerger_merge (accumulative : bool) (base incoming : Value)
    {struct base} : Result Value :=
  match base, incoming with
  | VScalar s1, VScalar s2 =>
      if decide (s1 = s2) then OK base
      else match accumulative, s1, s2 with
           | true, SStr t1, SStr t2 => OK (VStr (t1 +:+ t2))
           | _, _, _ => Err ConflictError
           end
  | VList l1, VList l2 => OK (VList (dedup (l1 ++ l2)))
  | VMap m1, VMap m2 =>
      do m <- collect (merge (λ ob oi,
                match ob, oi with
                | Some b, Some i => Some (PropertyMerger_merge accumulative b i)
                | Some b, None => Some (OK b)
                | None, Some i => Some (OK i)
                | None, None => None
                end) m1 m2);
      OK (VMap m)
  | _, _ => Err TypeMismatchError
  end.

(** The merge as [flask.py] calls it: two arguments, no accumulative
    designation. *)
Definition apply_extension_property (existing_property extension_property : Value)
    : Result Value :=
  PropertyMerger_merge false existing_property extension_property.

(** ** The extension contract and the processor *)

(** Modelled from the spec: the base class [Extension] of [extension.py]
    is not part of the sources at hand; these are the five capabilities
    of section 4.4, each hook computed against a document. *)
Record Extension := {
  getSupportedBases : list string;
  isExperimental : option string → bool;
  getRootSnippet : gmap string Value → Result (gmap string Value);
  getPartsSnippet : gmap string Value → Result (gmap string Value);
  getPartSnippet : string → gmap string Value → Result (gmap string Value);
}.

(** The Flask extension over a project directory. *)
Definition flask (root : ProjectRoot) : Extension := {|
  getSupportedBases := Flask.get_supported_bases;
  isExperimental := Flask.is_experimental;
  getRootSnippet document :=
    Flask.get_root_snippet apply_extension_property (Flask.mk document root);
  getPartsSnippet document :=
    OK (Flask.get_parts_snippet (Flask.mk document root));
  getPartSnippet _ document :=
    OK (Flask.get_part_snippet (Flask.mk document root));
|}.

(** The PartMerger of section 4.2 is [_merge_part] with the property
    merge above. *)
Definition mergeParts (base incoming : Value) : Result Value :=
  rmap VMap (Flask._merge_part apply_extension_property base incoming).

Definition as_mapping (v : Value) : Result (gmap string Value) :=
  match v with
  | VMap m => OK m
  | _ => Err TypeMismatchError
  end.

(** Modelled from the spec: the processor of [_utils.py] is not part of
    the sources at hand; this is step 4 of section 4.5 for the parts
    mapping: parts are merged by name, a new part is inserted, an
    existing part is merged by the PartMerger. *)
Definition merge_parts (parts incoming : gmap string Value)
    : Result (gmap string Value) :=
  collect (merge (λ op oi,
    match op, oi with
    | Some p, Some i => Some (mergeParts p i)
    | Some p, None => Some (OK p)
    | None, Some i => Some (OK i)
    | None, None => None
    end) parts incoming).

(** Modelled from the spec: step 4 of section 4.5 for one root-level key
    of a snippet: a key the document lacks is inserted, the parts
    mapping is merged by part name, any other key is merged by the
    PropertyMerger against the document's value. *)
Definition merge_key (document : gmap string Value) (k : string) (incoming : Value)
    : Result Value :=
  match document !! k with
  | None => OK incoming
  | Some existing =>
      if decide (k = "parts") then
        do ep <- as_mapping existing;
        do ip <- as_mapping incoming;
        rmap VMap (merge_parts ep ip)
      else apply_extension_property existing incoming
  end.

(** Modelled from the spec: merging a snippet into the document; on any
    error the whole merge is abandoned and no document results. *)
Definition merge_snippet (document snippet : gmap string Value)
    : Result (gmap string Value) :=
  do updates <- collect (map_imap (λ k v, Some (merge_key document k v)) snippet);
  OK (updates ∪ document).

(** Modelled from the spec: the per-part snippet patches, by the
    PartMerger, every part that exists in the document the hooks were
    computed against. *)
Definition patch_parts (existing : gset string)
    (snippet_for : string → Result (gmap string Value))
    (document : gmap string Value) : Result (gmap string Value) :=
  match document !! "parts" with
  | None => OK document
  | Some p =>
      do parts <- as_mapping p;
      do patched <- collect (map_imap (λ name part,
          Some (if decide (name ∈ existing)
                then do sn <- snippet_for name; mergeParts part (VMap sn)
                else OK part)) parts);
      OK (<["parts" := VMap patched]> document)
  end.

Definition existing_parts (document : gmap string Value) : gset string :=
  match document !! "parts" with
  | Some (VMap parts) => dom parts
  | _ => ∅
  end.

(** Modelled from the spec: steps 3 and 4 of section 4.5 for one
    extension: the three snippets are computed against the current
    document and merged into it. *)
Definition apply_snippets (ext : Extension) (document : gmap string Value)
    : Result (gmap string Value) :=
  do root <- getRootSnippet ext document;
  do parts <- getPartsSnippet ext document;
  do d1 <- merge_snippet document root;
  do d2 <- merge_snippet d1 {[ "parts" := VMap parts ]};
  patch_parts (existing_parts document)
    (λ name, getPartSnippet ext name document) d2.

Definition declared_base (document : gmap string Value) : option string :=
  match document !! "base" with
  | Some (VScalar (SStr b)) => Some b
  | _ => None
  end.

(** Modelled from the spec: step 2 of section 4.5: the declared base
    must be supported, and an experimental extension needs the caller's
    opt-in. *)
Definition validate (ext : Extension) (experimental_opt_in : bool)
    (document : gmap string Value) : Result unit :=
  let base := declared_base document in
  if match base with
     | Some b => bool_decide (b ∈ getSupportedBases ext)
     | None => false
     end
  then if isExperimental ext base && negb experimental_opt_in
       then Err ExperimentalNotEnabledError
       else OK ()
  else Err UnsupportedBaseError.

(** Modelled from the spec: steps 2 to 4 for one extension. *)
Definition apply_extension (ext : Extension) (experimental_opt_in : bool)
    (document : gmap string Value) : Result (gmap string Value) :=
  do _ <- validate ext experimental_opt_in document;
  apply_snippets ext document.

(** ** [_merge_part] over a store of mutable objects

    Python dicts and lists are objects that are shared by reference and
    mutated in place.  Whether [_merge_part] mutates its arguments is a
    question about the store, so here values are scalars or references,
    and every method runs in a state monad over the store. *)

Module Heap.

Definition loc := positive.

Inductive val :=
| Imm (s : Scalar)
| Ref (l : loc).

Inductive obj :=
| Dict (d : gmap string val)
| List (l : list val).

Abbreviation store := (gmap loc obj).

(** Computations that read and write the store and may raise. *)
Definition M (A : Type) : Type := store → Result A * store.

Definition ret {A : Type} (a : A) : M A := λ σ, (OK a, σ).

Definition raise {A : Type} (e : Error) : M A := λ σ, (Err e, σ).

Definition mbind {A B : Type} (m : M A) (k : A → M B) : M B :=
  λ σ, match m σ with
       | (OK a, σ') => k a σ'
       | (Err e, σ') => (Err e, σ')
       end.

Notation "'run' x <- m ; k" := (mbind m (λ x, k))
  (at level 10, x name, m at level 100, k at level 200).

(** [{}]: a new, empty dict. *)
Definition new_dict : M val :=
  λ σ, let l := fresh (dom σ) in (OK (Ref l), <[l := Dict ∅]> σ).

(** The dict behind a value; only a dict has [keys], [in] on names and
    item assignment. *)
Definition get_dict (v : val) : M (gmap string val) :=
  λ σ, match v with
       | Ref l => match σ !! l with
                  | Some (Dict d) => (OK d, σ)
                  | _ => (Err AttributeError, σ)
                  end
       | Imm _ => (Err AttributeError, σ)
       end.

(** [set(d.keys())] *)
Definition keys (v : val) : M (gset string) :=
  run d <- get_dict v; ret (dom d).

(** [name in d] *)
Definition contains (v : val) (name : string) : M bool :=
  run d <- get_dict v; ret (bool_decide (name ∈ dom d)).

(** [d[name]] *)
Definition getitem (v : val) (name : string) : M val :=
  run d <- get_dict v;
  match d !! name with
  | Some x => ret x
  | None => raise (KeyError name)
  end.

(** [d[name] = x]: the one operation of [_merge_part] that writes. *)
Definition setitem (v : val) (name : string) (x : val) : M unit :=
  run d <- get_dict v;
  λ σ, match v with
       | Ref l => (OK (), <[l := Dict (<[name := x]> d)]> σ)
       | Imm _ => (Err AttributeError, σ)
       end.

(** A dict or list display: a new object with the given content. *)
Definition new_obj (o : obj) : M val :=
  λ σ, let l := fresh (dom σ) in (OK (Ref l), <[l := o]> σ).

(** [d.get(name, default)] *)
Definition dict_get (v : val) (name : string) (default_value : val) : M val :=
  run d <- get_dict v; ret (default default_value (d !! name)).

(** [d.update(other)]: the entries of [other] are written into [d]. *)
Definition dict_update (v other : val) : M unit :=
  run d <- get_dict v;
  run o <- get_dict other;
  λ σ, match v with
       | Ref l => (OK (), <[l := Dict (o ∪ d)]> σ)
       | Imm _ => (Err AttributeError, σ)
       end.

(** [v == "..."] against a string: only that string is equal to it. *)
Definition eq_str (v : val) (s : string) : bool :=
  match v with
  | Imm (SStr t) => bool_decide (t = s)
  | _ => false
  end.

Definition collect_list (l : list (Result Value)) : Result (list Value) :=
  foldr (λ r acc, do v <- r; do vs <- acc; OK (v :: vs)) (OK []) l.

(** The tree of values that a heap value stands for, read from the
    store.  The reading follows references; [depth] bounds the nesting
    it follows, as the interpreter's recursion limit does. *)
Fixpoint reify (depth : nat) (σ : store) (v : val) : Result Value :=
  match v with
  | Imm s => OK (VScalar s)
  | Ref l =>
      match depth with
      | 0 => Err RecursionError
      | S n =>
          match σ !! l with
          | Some (Dict d) => rmap VMap (collect (reify n σ <$> d))
          | Some (List xs) => rmap VList (collect_list (reify n σ <$> xs))
          | None => Err AttributeError
          end
      end
  end.

(** A tree of values built in the store from new objects only. *)
Fixpoint alloc (v : Value) : M val :=
  match v with
  | VScalar s => ret (Imm s)
  | VList l =>
      run xs <- foldr (λ x rest, run y <- alloc x; run ys <- rest; ret (y :: ys))
                  (ret []) l;
      new_obj (List xs)
  | VMap m =>
      run d <- map_fold (λ k x rest, run d <- rest; run y <- alloc x;
                                      ret (<[k := y]> d))
                 (ret ∅) m;
      new_obj (Dict d)
  end.

(** [copy.deepcopy]: the value is read and built again from new
    objects; a scalar is its own copy.  A document read from YAML is a
    tree; an object that the value reaches by two ways would get a copy
    for each. *)
Definition deepcopy (depth : nat) (v : val) : M val :=
  λ σ, match reify depth σ v with
       | OK x => alloc x σ
       | Err e => (Err e, σ)
       end.

(** The extension object: [yaml_data] refers to the document. *)
Record self_t := mk_self {
  yaml_data : val;
  project_root : ProjectRoot;
}.

Definition imm_str (s : string) : val := Imm (SStr s).

Section Merging.

Variable apply_extension_property : val → val → M val.

Fixpoint _merge_part_loop (properties : list string)
    (base_part new_part result : val) : M unit :=
  match properties with
  | [] => ret ()
  | property_name :: rest =>
      run in_base <- contains base_part property_name;
      run in_new <- contains new_part property_name;
      run _ <-
        (if in_base && negb in_new then
           run b <- getitem base_part property_name;
           setitem result property_name b
         else if negb in_base && in_new then
           run n <- getitem new_part property_name;
           setitem result property_name n
         else
           run b <- getitem base_part property_name;
           run n <- getitem new_part property_name;
           run v <- apply_extension_property b n;
           setitem result property_name v);
      _merge_part_loop rest base_part new_part result
  end.

Definition _merge_part (base_part new_part : val) : M val :=
  run result <- new_dict;
  run base_keys <- keys base_part;
  run new_keys <- keys new_part;
  run _ <- _merge_part_loop (elements (base_keys ∪ new_keys))
             base_part new_part result;
  ret result.

(** Each [{}] given as a default is a new dict, made before the [get]
    that it is passed to. *)
Definition _merge_existing_part (self : self_t) (part_name : string)
    (part_def : val) : M val :=
  run no_parts <- new_dict;
  run parts <- dict_get (yaml_data self) "parts" no_parts;
  run no_part <- new_dict;
  run existing_part <- dict_get parts part_name no_part;
  _merge_part existing_part part_def.

Definition _gen_new_parts (self : self_t) : M val :=
  if negb (requirements_txt_exists (project_root self)) then
    raise (ValueError Flask.missing_requirements)
  else
    let root := project_root self in
    run ignores <- new_obj (List (imm_str <$> Flask.ignores));
    run source_files <- new_obj (List (imm_str <$> Flask.source_files root));
    run renaming_map <-
      new_obj (Dict (list_to_map (prod_map id imm_str <$> Flask.renaming_map root)));
    run stage <- new_obj (List (imm_str <$> odict_values (Flask.renaming_map root)));
    run install_app_part <-
      new_obj (Dict {[ "plugin" := imm_str "dump";
                       "source" := imm_str ".";
                       "organize" := renaming_map;
                       "stage" := stage ]});
    run stage_packages <- new_obj (List [imm_str "python3-venv"]);
    run python_packages <- new_obj (List [imm_str "gunicorn"]);
    run python_requirements <- new_obj (List [imm_str "requirements.txt"]);
    run dependencies_part <-
      new_obj (Dict {[ "plugin" := imm_str "python";
                       "stage-packages" := stage_packages;
                       "source" := imm_str ".";
                       "python-packages" := python_packages;
                       "python-requirements" := python_requirements ]});
    run dependencies <-
      _merge_existing_part self Flask.dependencies_part_name dependencies_part;
    run install_app <-
      _merge_existing_part self Flask.install_app_part_name install_app_part;
    new_obj (Dict {[ Flask.dependencies_part_name := dependencies;
                     Flask.install_app_part_name := install_app ]}).

Definition get_root_snippet (depth : nat) (self : self_t) : M val :=
  run snippet <- new_dict;
  run has_run_user <- contains (yaml_data self) "run_user";
  run _ <- (if negb has_run_user
            then setitem snippet "run_user" (imm_str "_daemon_") else ret ());
  run has_build_base <- contains (yaml_data self) "build-base";
  run bare <- (if negb has_build_base
               then run base <- dict_get (yaml_data self) "base" (imm_str "bare");
                    ret (eq_str base "bare")
               else ret false);
  run _ <- (if bare
            then setitem snippet "build-base" (imm_str "ubuntu:22.04") else ret ());
  run has_platforms <- contains (yaml_data self) "platforms";
  run _ <- (if negb has_platforms
            then run amd64 <- new_dict;
                 run platforms <- new_obj (Dict {[ "amd64" := amd64 ]});
                 setitem snippet "platforms" platforms
            else ret ());
  run no_parts <- new_dict;
  run parts <- dict_get (yaml_data self) "parts" no_parts;
  run current_parts <- deepcopy depth parts;
  (* the method [current_parts.update] is looked up before its argument
     is evaluated *)
  run _ <- get_dict current_parts;
  run new_parts <- _gen_new_parts self;
  run _ <- dict_update current_parts new_parts;
  run _ <- setitem snippet "parts" current_parts;
  ret snippet.

End Merging.

(** Modelled from the spec: the module [_utils.py] that defines
    [apply_extension_property] is not part of the sources at hand; this
    is the PropertyMerger of section 4.1 over the store, as the pure,
    allocation-returning function that sections 4.2 and 9 ask for: the
    two values are read, merged as [PropertyMerger_merge] says, and the
    result is built from new objects. *)
Definition apply_extension_property (depth : nat) (existing_property extension_property : val)
    : M val :=
  λ σ, match reify depth σ existing_property, reify depth σ extension_property with
       | OK x, OK y =>
           match PropertyMerger_merge false x y with
           | OK v => alloc v σ
           | Err e => (Err e, σ)
           end
       | Err e, _ => (Err e, σ)
       | OK _, Err e => (Err e, σ)
       end.

(** A property merge over the store that writes nothing: scalars must
    agree, and two lists give a new list, the first followed by the
    elements of the second that it lacks. *)
Definition val_eqb (a b : val) : bool :=
  match a, b with
  | Imm s1, Imm s2 => bool_decide (s1 = s2)
  | Ref l1, Ref l2 => bool_decide (l1 = l2)
  | _, _ => false
  end.

Definition merge_fresh (a b : val) : M val :=
  λ σ, match a, b with
       | Imm s1, Imm s2 =>
           if bool_decide (s1 = s2) then (OK a, σ) else (Err ConflictError, σ)
       | Ref l1, Ref l2 =>
           match σ !! l1, σ !! l2 with
           | Some (List x), Some (List y) =>
               let l := fresh (dom σ) in
               (OK (Ref l),
                <[l := List (x ++ filter (λ v, ¬ existsb (val_eqb v) x) y)]> σ)
           | _, _ => (Err TypeMismatchError, σ)
           end
       | _, _ => (Err TypeMismatchError, σ)
       end.

(** A property merge that updates its first argument in place. *)
Definition merge_in_place (a b : val) : M val :=
  λ σ, match a, b with
       | Ref l1, Ref l2 =>
           match σ !! l1, σ !! l2 with
           | Some (List x), Some (List y) => (OK a, <[l1 := List (x ++ y)]> σ)
           | _, _ => (Err TypeMismatchError, σ)
           end
       | _, _ => (Err TypeMismatchError, σ)
       end.

(** A computation run from a store that holds the locations [L] leaves
    the objects at [L] as they were, and its result satisfies [Q]. *)
Definition keeps {A : Type} (L : gset loc) (m : M A) (Q : A → Prop) : Prop :=
  ∀ σ, L ⊆ dom σ →
    (∀ l, l ∈ L → (m σ).2 !! l = σ !! l)
    ∧ (∀ a, (m σ).1 = OK a → Q a).

(** A heap value that is none of the objects at [L]. *)
Definition new_for (L : gset loc) (v : val) : Prop :=
  match v with
  | Imm _ => True
  | Ref l => l ∉ L
  end.

(** The store [σ] holds every object of [σ0], unchanged. *)
Definition extends_store (σ0 σ : store) : Prop :=
  ∀ l, l ∈ dom σ0 → σ !! l = σ0 !! l.


End Heap.

(** ** Auxiliary notions for the statements *)

(** What the loop of [_merge_part] stores for a property name, from the
    lookups in the two parts. *)
Definition merged_property (pm : Value → Value → Result Value)
    (b n : option Value) : option (Result Value) :=
  match b, n with
  | Some b, None => Some (OK b)
  | None, Some n => Some (OK n)
  | Some b, Some n => Some (pm b n)
  | None, None => None
  end.

(** The parts entry of a document is absent or a mapping. *)
Definition parts_is_mapping (document : gmap string Value) : Prop :=
  match document !! "parts" with
  | None => True
  | Some (VMap _) => True
  | Some _ => False
  end.

(** A value that the property merge leaves alone when merged with
    itself: its sequences, as far as mappings lead to them, have no
    repetition. *)
Definition normal (v : Value) : Prop := apply_extension_property v v = OK v.

(** The two parts the Flask extension generates, before they are merged
    with the parts of the document. *)
Definition flask_parts (root : ProjectRoot) : gmap string Value :=
  {[ Flask.dependencies_part_name := VMap Flask.dependencies_part;
     Flask.install_app_part_name := VMap (Flask.install_app_part root) ]}.

(** The parts mapping of a document, empty when the key is absent. *)
Definition parts_of (document : gmap string Value) : gmap string Value :=
  match document !! "parts" with
  | Some (VMap parts) => parts
  | _ => ∅
  end.

(** Every part of a parts mapping is a mapping. *)
Definition all_mappings (parts : gmap string Value) : Prop :=
  ∀ name p, parts !! name = Some p → ∃ m, p = VMap m.

(** The root defaults that [get_root_snippet] fills in for a document:
    its snippet without the parts entry. *)
Definition root_defaults (document : gmap string Value) : gmap string Value :=
  let snippet : gmap string Value := ∅ in
  let snippet :=
    if bool_decide ("run_user" ∉ dom document)
    then <["run_user" := VStr "_daemon_"]> snippet else snippet in
  let snippet :=
    if bool_decide ("build-base" ∉ dom document)
       && bool_decide (default (VStr "bare") (document !! "base") = VStr "bare")
    then <["build-base" := VStr "ubuntu:22.04"]> snippet else snippet in
  if bool_decide ("platforms" ∉ dom document)
  then <["platforms" := VMap {[ "amd64" := VMap ∅ ]}]> snippet else snippet.

(** ** Sample inputs *)

(** A project directory with a requirements file, an application, a
    version-control directory and a packed rock. *)
Definition sample_root : ProjectRoot := {|
  requirements_txt_exists := true;
  os_listdir := ["app.py"; "requirements.txt"; ".git"; "flask.rock"];
|}.


(** A document that sets the user and declares a part of its own. *)
Definition sample_document : gmap string Value :=
  {[ "base" := VStr "ubuntu:22.04";
     "run_user" := VStr "root";
     "parts" := VMap {[ "flask/dependencies" :=
                          VMap {[ "stage-packages" := VList [VStr "curl"; VStr "curl"] ]};
                        "docs" := VMap {[ "plugin" := VStr "nil" ]} ]} ]}.

(** A store with two parts that share the lists they refer to with
    nothing else: the part at 1 and the part at 2. *)
Definition sample_store : gmap Heap.loc Heap.obj :=
  {[ 1%positive := Heap.Dict {[ "plugin" := Heap.Imm (SStr "python");
                                "stage-packages" := Heap.Ref 3%positive ]};
     2%positive := Heap.Dict {[ "plugin" := Heap.Imm (SStr "python");
                                "stage-packages" := Heap.Ref 4%positive;
                                "source" := Heap.Imm (SStr ".") ]};
     3%positive := Heap.List [Heap.Imm (SStr "curl")];
     4%positive := Heap.List [Heap.Imm (SStr "python3-venv")] ]}.

(** The sample document in a store: the document at 1, its parts at 2,
    the two parts at 3 and 5, the list of packages at 4. *)
Definition sample_document_store : gmap Heap.loc Heap.obj :=
  {[ 1%positive := Heap.Dict {[ "base" := Heap.Imm (SStr "ubuntu:22.04");
                                "run_user" := Heap.Imm (SStr "root");
                                "parts" := Heap.Ref 2%positive ]};
     2%positive := Heap.Dict {[ "flask/dependencies" := Heap.Ref 3%positive;
                                "docs" := Heap.Ref 5%positive ]};
     3%positive := Heap.Dict {[ "stage-packages" := Heap.Ref 4%positive ]};
     4%positive := Heap.List [Heap.Imm (SStr "curl"); Heap.Imm (SStr "curl")];
     5%positive := Heap.Dict {[ "plugin" := Heap.Imm (SStr "nil") ]} ]}.


(** A document that declares the bare base and nothing else. *)
Definition bare_document : gmap string Value := {[ "base" := VStr "bare" ]}.

(** Two parts that share the plugin and differ in the rest. *)
Definition sample_base_part : gmap string Value :=
  {[ "plugin" := VStr "python"; "stage-packages" := VList [VStr "curl"] ]}.

Definition sample_new_part : gmap string Value :=
  {[ "plugin" := VStr "python"; "source" := VStr "." ]}.

(** Property merges to instantiate the part merge with: one that
    accepts equal values only, and one that always fails. *)
Definition merge_equal (a b : Value) : Result Value :=
  if decide (a = b) then OK a else Err ConflictError.

Definition merge_never (a b : Value) : Result Value := Err ConflictError.

(** A store with two parts that have no property name in common; each
    refers to a list of its own. *)
Definition sample_store_disjoint : gmap Heap.loc Heap.obj :=
  {[ 1%positive := Heap.Dict {[ "plugin" := Heap.Imm (SStr "python");
                                "stage-packages" := Heap.Ref 3%positive ]};
     2%positive := Heap.Dict {[ "source" := Heap.Imm (SStr ".");
                                "python-packages" := Heap.Ref 4%positive ]};
     3%positive := Heap.List [Heap.Imm (SStr "curl")];
     4%positive := Heap.List [Heap.Imm (SStr "gunicorn")] ]}.

(** * Properties *)

(** ** The error monad *)

Lemma bind_OK {A B : Type} (r : Result A) (k : A → Result B) (b : B) :
  bind r k = OK b ↔ ∃ a, r = OK a ∧ k a = OK b.
Proof. destruct r; simpl; naive_solver. Qed.

Lemma bind_Err {A B : Type} (r : Result A) (k : A → Result B) (e : Error) :
  bind r k = Err e ↔ r = Err e ∨ ∃ a, r = OK a ∧ k a = Err e.
Proof. destruct r; simpl; naive_solver. Qed.

Lemma rmap_OK {A B : Type} (f : A → B) (r : Result A) (b : B) :
  rmap f r = OK b ↔ ∃ a, r = OK a ∧ b = f a.
Proof. unfold rmap. rewrite bind_OK. naive_solver. Qed.

(** ** Collecting a mapping of results *)

Lemma collect_spec (m : gmap string (Result Value)) :
  match collect m with
  | OK a => m = OK <$> a
  | Err e => ∃ k, m !! k = Some (Err e)
  end.
Proof.
  unfold collect.
  apply (map_fold_weak_ind (λ r m,
    match r with
    | OK a => m = OK <$> a
    | Err e => ∃ k, m !! k = Some (Err e)
    end)).
  - by rewrite fmap_empty.
  - intros i x m' r Hi IH. destruct r as [a|e]; simpl.
    + destruct x as [v|e]; simpl.
      * by rewrite fmap_insert, IH.
      * exists i. by rewrite lookup_insert_eq.
    + destruct IH as [k Hk]. exists k.
      rewrite lookup_insert_ne; [done|]. intros ->. congruence.
Qed.

Lemma collect_OK (m : gmap string (Result Value)) (a : gmap string Value) :
  collect m = OK a ↔ m = OK <$> a.
Proof.
  split.
  - intros H. pose proof (collect_spec m) as Hs. by rewrite H in Hs.
  - intros ->. pose proof (collect_spec (OK <$> a)) as Hs.
    destruct (collect (OK <$> a)) as [a'|e].
    + f_equal. apply map_eq. intros k.
      apply (f_equal (λ m : gmap string (Result Value), m !! k)) in Hs.
      rewrite !lookup_fmap in Hs.
      destruct (a !! k), (a' !! k); simpl in *; congruence.
    + destruct Hs as [k Hk]. rewrite lookup_fmap in Hk.
      destruct (a !! k); simplify_eq/=.
Qed.

Lemma collect_Err (m : gmap string (Result Value)) (e : Error) :
  collect m = Err e → ∃ k, m !! k = Some (Err e).
Proof. intros H. pose proof (collect_spec m) as Hs. by rewrite H in Hs. Qed.

Lemma collect_lookup (m : gmap string (Result Value)) (a : gmap string Value) k :
  collect m = OK a → m !! k = OK <$> a !! k.
Proof. intros ->%collect_OK. by rewrite lookup_fmap. Qed.

(** A mapping whose entries are all [OK] collects to a mapping. *)
Lemma collect_total (m : gmap string (Result Value)) :
  (∀ k r, m !! k = Some r → is_OK r) → is_OK (collect m).
Proof.
  intros Hall. pose proof (collect_spec m) as Hs.
  destruct (collect m) as [a|e]; [by eexists|].
  destruct Hs as [k Hk]. destruct (Hall _ _ Hk) as [? ?]. congruence.
Qed.

(** ** First-occurrence deduplication *)

Lemma elem_of_dedup (l : list Value) (x : Value) : x ∈ dedup l ↔ x ∈ l.
Proof.
  induction l as [|y l IH]; simpl; [done|].
  rewrite !elem_of_cons, list_elem_of_filter, IH.
  destruct (decide (x = y)); naive_solver.
Qed.

Lemma NoDup_dedup (l : list Value) : NoDup (dedup l).
Proof.
  induction l as [|y l IH]; simpl; [constructor|].
  constructor.
  - rewrite list_elem_of_filter. naive_solver.
  - by apply NoDup_filter.
Qed.

Lemma filter_id {A : Type} (P : A → Prop) `{!∀ x, Decision (P x)} (l : list A) :
  (∀ x, x ∈ l → P x) → filter P l = l.
Proof.
  induction l as [|y l IH]; [done|]. intros Hall.
  rewrite filter_cons_True by (apply Hall; left).
  rewrite IH; [done|]. intros x Hx. apply Hall. by right.
Qed.

Lemma filter_ne_id (l : list Value) (x : Value) :
  x ∉ l → filter (λ y, y ≠ x) l = l.
Proof. intros Hx. apply filter_id. intros y Hy ->. done. Qed.

Lemma dedup_NoDup_id (l : list Value) : NoDup l → dedup l = l.
Proof.
  induction 1 as [|x l Hx Hl IH]; simpl; [done|].
  rewrite IH. by rewrite filter_ne_id.
Qed.

Lemma dedup_idemp (l : list Value) : dedup (dedup l) = dedup l.
Proof. apply dedup_NoDup_id, NoDup_dedup. Qed.

Lemma filter_filter_comm (P Q : Value → Prop)
    `{!∀ x, Decision (P x)} `{!∀ x, Decision (Q x)} (l : list Value) :
  filter P (filter Q l) = filter Q (filter P l).
Proof.
  induction l as [|y l IH]; [done|].
  destruct (decide (P y)), (decide (Q y));
    repeat (first [rewrite filter_cons_True by done
                  |rewrite filter_cons_False by done]); by rewrite ?IH.
Qed.

Lemma dedup_filter (P : Value → Prop) `{!∀ x, Decision (P x)} (l : list Value) :
  dedup (filter P l) = filter P (dedup l).
Proof.
  induction l as [|y l IH]; [done|]. simpl.
  destruct (decide (P y)).
  - rewrite !filter_cons_True by done. simpl. rewrite IH.
    by rewrite filter_filter_comm.
  - rewrite !filter_cons_False by done. rewrite IH, list_filter_filter.
    apply list_filter_iff. intros x. split; [|naive_solver].
    intros Hx. split; [done|]. by intros ->.
Qed.

(** Deduplicating a concatenation: the first sequence deduplicated, then
    what the second adds. *)
Lemma dedup_app (a b : list Value) :
  dedup (a ++ b) = dedup a ++ dedup (filter (λ y, y ∉ a) b).
Proof.
  induction a as [|x a IH]; simpl.
  - rewrite filter_id; [done|]. intros y _. apply not_elem_of_nil.
  - f_equal. rewrite IH, filter_app. f_equal.
    rewrite <-dedup_filter. f_equal.
    rewrite list_filter_filter. apply list_filter_iff.
    intros y. rewrite not_elem_of_cons. naive_solver.
Qed.

Lemma dedup_sublist (l : list Value) : dedup l `sublist_of` l.
Proof.
  induction l as [|x l IH]; simpl; [done|].
  apply sublist_skip. etrans; [apply sublist_filter|done].
Qed.

(** ** The property merge on sequences and scalars *)

(** C2: the property merge of two sequences returns their concatenation
    deduplicated: every element of either sequence occurs exactly once,
    the elements of the first come first in their original order, then
    the elements only the second has, in their original order; and
    merging [x, y] with [y, z] gives [x, y, z]. *)
Theorem apply_extension_property_sequences (A B : list Value) :
  let R := dedup (A ++ B) in
  apply_extension_property (VList A) (VList B) = OK (VList R)
  ∧ NoDup R
  ∧ (∀ x, x ∈ R ↔ x ∈ A ∨ x ∈ B)
  ∧ R = dedup A ++ dedup (filter (λ y, y ∉ A) B)
  ∧ dedup A `sublist_of` A
  ∧ dedup (filter (λ y, y ∉ A) B) `sublist_of` B
  ∧ (∀ y, y ∈ dedup (filter (λ y, y ∉ A) B) → y ∉ A)
  ∧ apply_extension_property (VList [VStr "x"; VStr "y"]) (VList [VStr "y"; VStr "z"])
    = OK (VList [VStr "x"; VStr "y"; VStr "z"]).
Proof.
  intros R. subst R. split_and!.
  - done.
  - apply NoDup_dedup.
  - intros x. by rewrite elem_of_dedup, elem_of_app.
  - apply dedup_app.
  - apply dedup_sublist.
  - etrans; [apply dedup_sublist|apply sublist_filter].
  - intros y. rewrite elem_of_dedup, list_elem_of_filter. tauto.
  - vm_compute. reflexivity.
Qed.

(** When the first sequence has no repetition it is kept as it is. *)
Lemma apply_extension_property_sequences_NoDup (A B : list Value) :
  NoDup A →
  apply_extension_property (VList A) (VList B)
  = OK (VList (A ++ dedup (filter (λ y, y ∉ A) B))).
Proof.
  intros HA. unfold apply_extension_property. simpl.
  by rewrite dedup_app, (dedup_NoDup_id A).
Qed.

(** C3: for two scalars of a property that is not accumulative, the
    property merge raises ConflictError exactly when they differ, and
    returns the scalar when they are equal. *)
Theorem apply_extension_property_scalars (s1 s2 : Scalar) :
  (PropertyMerger_merge false (VScalar s1) (VScalar s2) = Err ConflictError ↔ s1 ≠ s2)
  ∧ PropertyMerger_merge false (VScalar s1) (VScalar s1) = OK (VScalar s1)
  ∧ apply_extension_property (VScalar s1) (VScalar s2)
    = if decide (s1 = s2) then OK (VScalar s1) else Err ConflictError.
Proof.
  unfold apply_extension_property. simpl. split_and!.
  - destruct (decide (s1 = s2)); [naive_solver|].
    by destruct s1, s2.
  - by rewrite decide_True.
  - destruct (decide (s1 = s2)); [done|]. by destruct s1, s2.
Qed.

(** ** The hooks of the Flask extension *)

(** C10: the Flask extension is experimental on every base, the absent
    base included; so without the caller's opt-in the processor never
    applies it, whatever the document. *)
Theorem flask_is_experimental (base : option string)
    (root : ProjectRoot) (document : gmap string Value) :
  Flask.is_experimental base = true
  ∧ isExperimental (flask root) base = true
  ∧ validate (flask root) false document ≠ OK ()
  ∧ ∃ e, apply_extension (flask root) false document = Err e
         ∧ (e = UnsupportedBaseError ∨ e = ExperimentalNotEnabledError).
Proof.
  split_and!; [done|done| |];
    unfold apply_extension, validate; simpl;
    destruct (declared_base document) as [b|]; simpl;
    try case_bool_decide; simpl; naive_solver.
Qed.

(** With the opt-in and a supported base the validation lets the
    extension through. *)
Lemma flask_validate_opt_in (root : ProjectRoot) (document : gmap string Value) b :
  declared_base document = Some b → b ∈ Flask.get_supported_bases →
  validate (flask root) true document = OK ().
Proof.
  intros Hb Hin. unfold validate. rewrite Hb. simpl.
  by rewrite bool_decide_eq_true_2.
Qed.

(** ** The root snippet *)

(** Python's [key not in d]. *)
Lemma bool_decide_not_in_dom (m : gmap string Value) (k : string) :
  bool_decide (k ∉ dom m) = match m !! k with None => true | Some _ => false end.
Proof.
  destruct (m !! k) eqn:Hk.
  - apply bool_decide_eq_false_2. intros Hn. apply Hn, elem_of_dom. eauto.
  - apply bool_decide_eq_true_2. by apply not_elem_of_dom.
Qed.

Section RootSnippet.

Variable apply_extension_property : Value → Value → Result Value.

(** C4: when the root snippet is computed, it holds "run_user", with
    value "_daemon_", exactly when the document lacks that key, and
    "platforms", with value {"amd64": {}}, exactly when the document
    lacks that key; a key the document sets is not in the snippet. *)
Theorem root_snippet_scalar_defaults (self : Flask.t) (snippet : gmap string Value) :
  Flask.get_root_snippet apply_extension_property self = OK snippet →
  snippet !! "run_user"
    = match Flask.yaml_data self !! "run_user" with
      | None => Some (VStr "_daemon_")
      | Some _ => None
      end
  ∧ snippet !! "platforms"
    = match Flask.yaml_data self !! "platforms" with
      | None => Some (VMap {[ "amd64" := VMap ∅ ]})
      | Some _ => None
      end.
Proof.
  unfold Flask.get_root_snippet. intros H.
  apply bind_OK in H as (cp & _ & H). apply bind_OK in H as (np & _ & H).
  injection H as <-. rewrite !bool_decide_not_in_dom.
  split; rewrite lookup_insert_ne by done.
  - destruct (Flask.yaml_data self !! "run_user");
      repeat case_match; by simplify_map_eq.
  - destruct (Flask.yaml_data self !! "platforms");
      repeat case_match; by simplify_map_eq.
Qed.


End RootSnippet.

Lemma root_snippet_scalar_defaults_witness :
  match Flask.get_root_snippet apply_extension_property
          (Flask.mk sample_document sample_root) with
  | OK snippet =>
      snippet !! "run_user" = None
      ∧ snippet !! "platforms" = Some (VMap {[ "amd64" := VMap ∅ ]})
  | Err _ => False
  end.
Proof.
  assert (is_OKb (Flask.get_root_snippet apply_extension_property
                    (Flask.mk sample_document sample_root)) = true) as HOK
    by (vm_compute; reflexivity).
  destruct (Flask.get_root_snippet apply_extension_property
              (Flask.mk sample_document sample_root)) as [snippet|e] eqn:H.
  - exact (root_snippet_scalar_defaults apply_extension_property _ _ H).
  - discriminate HOK.
Defined.


(** A parts entry that is not a mapping fails first, when its [update]
    method is looked up. *)
Lemma root_snippet_parts_not_mapping (pm : Value → Value → Result Value) root :
  Flask.get_root_snippet pm (Flask.mk {[ "parts" := VScalar SNone ]} root)
  = Err AttributeError.
Proof. reflexivity. Qed.

(** ** The part merge *)

Section PartMerge.

Variable apply_extension_property : Value → Value → Result Value.

Local Abbreviation merge_part_loop := (Flask._merge_part_loop apply_extension_property).
Local Abbreviation merge_part := (Flask._merge_part apply_extension_property).
Local Abbreviation merged := (merged_property apply_extension_property).

(** A successful run of the loop has stored the merged property under
    every name it visited and left the other names of [result] alone. *)
Lemma merge_part_loop_OK (base new : gmap string Value) properties result r :
  merge_part_loop properties base new result = OK r →
  ∀ k, if decide (k ∈ properties)
       then merged (base !! k) (new !! k) = OK <$> (r !! k)
            ∧ is_Some (r !! k)
       else r !! k = result !! k.
Proof.
  revert result. induction properties as [|p ps IH]; intros result H k.
  - simpl in H. injection H as <-. by rewrite decide_False by apply not_elem_of_nil.
  - simpl in H.
    assert (∃ v, merged (base !! p) (new !! p) = Some (OK v)
                 ∧ merge_part_loop ps base new (<[p:=v]> result) = OK r)
      as (v & Hv & Hrest).
    { unfold merged_property.
      destruct (base !! p) as [b|], (new !! p) as [n|]; [|eauto|eauto|done].
      apply bind_OK in H as (v & Hv & H). rewrite Hv. eauto. }
    specialize (IH _ Hrest).
    destruct (decide (k ∈ ps)) as [Hin|Hnin].
    + specialize (IH k). rewrite decide_True in IH by done.
      rewrite decide_True by (by right). done.
    + specialize (IH k). rewrite decide_False in IH by done.
      destruct (decide (k = p)) as [->|Hne].
      * rewrite decide_True by left. rewrite IH, lookup_insert_eq. eauto.
      * rewrite decide_False by (rewrite elem_of_cons; tauto).
        by rewrite IH, lookup_insert_ne.
Qed.

(** A failing run of the loop propagates the error of the property
    merge on a shared name, or has met a name of neither part. *)
Lemma merge_part_loop_Err (base new : gmap string Value) properties result e :
  merge_part_loop properties base new result = Err e →
  (∃ k b n, k ∈ properties ∧ base !! k = Some b ∧ new !! k = Some n
            ∧ apply_extension_property b n = Err e)
  ∨ (∃ k, k ∈ properties ∧ base !! k = None ∧ new !! k = None).
Proof.
  revert result. induction properties as [|p ps IH]; intros result H; [done|].
  simpl in H.
  assert (∀ res, merge_part_loop ps base new res = Err e →
    (∃ k b n, k ∈ p :: ps ∧ base !! k = Some b ∧ new !! k = Some n
              ∧ apply_extension_property b n = Err e)
    ∨ (∃ k, k ∈ p :: ps ∧ base !! k = None ∧ new !! k = None)) as Hrest.
  { intros res [(k & b & n & ? & ?)|(k & ? & ?)]%IH.
    - left. exists k, b, n. split; [by right|done].
    - right. exists k. split; [by right|done]. }
  destruct (base !! p) as [b|] eqn:Hb, (new !! p) as [n|] eqn:Hn; eauto.
  - apply bind_Err in H as [H|(v & _ & H)]; [|eauto].
    left. exists p, b, n. split; [left|done].
  - right. exists p. split; [left|done].
Qed.

(** The cases of the part merge of two parts, name by name. *)
Lemma merge_part_cases (base incoming : gmap string Value) :
  match merge_part (VMap base) (VMap incoming) with
  | OK r =>
      dom r = dom base ∪ dom incoming
      ∧ ∀ k, match base !! k, incoming !! k with
             | Some b, None => r !! k = Some b
             | None, Some n => r !! k = Some n
             | Some b, Some n =>
                 ∃ v, apply_extension_property b n = OK v ∧ r !! k = Some v
             | None, None => r !! k = None
             end
  | Err e =>
      ∃ k b n, base !! k = Some b ∧ incoming !! k = Some n
               ∧ apply_extension_property b n = Err e
  end.
Proof.
  unfold Flask._merge_part. simpl.
  destruct (merge_part_loop _ base incoming ∅) as [r|e] eqn:H.
  - pose proof (merge_part_loop_OK _ _ _ _ _ H) as Hr.
    assert (∀ k, match base !! k, incoming !! k with
             | Some b, None => r !! k = Some b
             | None, Some n => r !! k = Some n
             | Some b, Some n =>
                 ∃ v, apply_extension_property b n = OK v ∧ r !! k = Some v
             | None, None => r !! k = None
             end) as Hk.
    { intros k. specialize (Hr k).
      destruct (base !! k) as [b|] eqn:Hb, (incoming !! k) as [n|] eqn:Hn.
      1-3: rewrite decide_True in Hr
        by (rewrite elem_of_elements, elem_of_union, !elem_of_dom, Hb, Hn;
            eauto);
        destruct Hr as [Hm [v Hv]]; rewrite Hv in Hm |- *; simpl in Hm;
        simplify_eq/=; eauto.
      rewrite decide_False in Hr; [by rewrite Hr|].
      rewrite elem_of_elements, elem_of_union, !elem_of_dom, Hb, Hn.
      intros [[? ?]|[? ?]]; done. }
    split; [|done].
    apply set_eq. intros k. specialize (Hk k).
    rewrite elem_of_union, !elem_of_dom.
    destruct (base !! k), (incoming !! k); try destruct Hk as (? & ? & Hk);
      rewrite Hk; split; eauto; intros [[? ?]|[? ?]]; done.
  - apply merge_part_loop_Err in H as [(k & b & n & _ & ?)|(k & Hin & Hb & Hn)].
    + eauto.
    + rewrite elem_of_elements, elem_of_union, !elem_of_dom, Hb, Hn in Hin.
      destruct Hin as [[? ?]|[? ?]]; done.
Qed.

(** C1: the part merge of two parts either returns a mapping whose names
    are exactly the names of either part, where a name only in the base
    keeps the base's value, a name only in the incoming part keeps the
    incoming value, and a shared name holds the property merge of the
    two values; or it fails with the error the property merge raised on
    a shared name. *)
Theorem merge_part_spec (base incoming : gmap string Value) :
  match merge_part (VMap base) (VMap incoming) with
  | OK r =>
      dom r = dom base ∪ dom incoming
      ∧ ∀ k, match base !! k, incoming !! k with
             | Some b, None => r !! k = Some b
             | None, Some n => r !! k = Some n
             | Some b, Some n =>
                 ∃ v, apply_extension_property b n = OK v ∧ r !! k = Some v
             | None, None => r !! k = None
             end
  | Err e =>
      ∃ k b n, base !! k = Some b ∧ incoming !! k = Some n
               ∧ apply_extension_property b n = Err e
  end.
Proof. exact (merge_part_cases base incoming). Qed.

(** The part merge succeeds exactly when the property merge succeeds on
    every shared name. *)
Lemma merge_part_is_OK (base incoming : gmap string Value) :
  is_OK (merge_part (VMap base) (VMap incoming))
  ↔ ∀ k b n, base !! k = Some b → incoming !! k = Some n →
             is_OK (apply_extension_property b n).
Proof.
  pose proof (merge_part_cases base incoming) as Hs. split.
  - intros [r Hr] k b n Hb Hn. rewrite Hr in Hs. destruct Hs as [_ Hs].
    specialize (Hs k). rewrite Hb, Hn in Hs. destruct Hs as (v & ? & _).
    by exists v.
  - intros Hall. destruct (merge_part _ _) as [r|e]; [by eexists|].
    destruct Hs as (k & b & n & Hb & Hn & He).
    destruct (Hall _ _ _ Hb Hn) as [v Hv]. congruence.
Qed.

(** The mapping the part merge returns is determined by the parts: the
    lookup under every name is fixed. *)
Lemma merge_part_lookup (base incoming r : gmap string Value) k :
  merge_part (VMap base) (VMap incoming) = OK r →
  OK <$> r !! k = merged (base !! k) (incoming !! k).
Proof.
  intros Hr. pose proof (merge_part_cases base incoming) as Hs.
  rewrite Hr in Hs. destruct Hs as [_ Hs]. specialize (Hs k).
  unfold merged_property.
  destruct (base !! k) as [b|], (incoming !! k) as [n|];
    [destruct Hs as (v & -> & Hs)| | |]; by rewrite Hs.
Qed.

(** The order in which the set of names is visited does not matter to a
    successful merge. *)
Lemma merge_part_any_order (base incoming : gmap string Value) properties r :
  properties ≡ₚ elements (dom base ∪ dom incoming) →
  merge_part_loop properties base incoming ∅ = OK r →
  merge_part (VMap base) (VMap incoming) = OK r.
Proof.
  intros Hperm Hloop.
  pose proof (merge_part_loop_OK _ _ _ _ _ Hloop) as Hr.
  pose proof (merge_part_cases base incoming) as Hs.
  assert (∀ k, k ∈ properties ↔ is_Some (base !! k) ∨ is_Some (incoming !! k))
    as Hin.
  { intros k. by rewrite Hperm, elem_of_elements, elem_of_union, !elem_of_dom. }
  destruct (merge_part _ _) as [r'|e].
  - f_equal. apply map_eq. intros k. destruct Hs as [_ Hs].
    specialize (Hs k). specialize (Hr k). specialize (Hin k).
    unfold merged_property in Hr.
    destruct (base !! k) as [b|], (incoming !! k) as [n|].
    1-3: rewrite decide_True in Hr by (apply Hin; eauto);
      destruct Hr as [Hm [v Hv]]; rewrite Hv in Hm |- *; simpl in Hm;
      try destruct Hs as (v' & Hv' & Hs); rewrite Hs; congruence.
    rewrite decide_False in Hr by (rewrite Hin; intros [[? ?]|[? ?]]; done).
    by rewrite Hs, Hr, lookup_empty.
  - destruct Hs as (k & b & n & Hb & Hn & He).
    specialize (Hr k). rewrite decide_True in Hr by (apply Hin; rewrite Hb; eauto).
    destruct Hr as [Hm _]. rewrite Hb, Hn in Hm. simpl in Hm.
    rewrite He in Hm. destruct (r !! k); simplify_eq/=.
Qed.

(** Merging into the empty part gives the incoming part, and merging the
    empty part in gives the base: the property merge is not called. *)
Lemma merge_part_empty_l (incoming : gmap string Value) :
  merge_part (VMap ∅) (VMap incoming) = OK incoming.
Proof.
  pose proof (merge_part_cases ∅ incoming) as Hs.
  destruct (merge_part _ _) as [r|e].
  - f_equal. apply map_eq. intros k. destruct Hs as [_ Hs]. specialize (Hs k).
    rewrite lookup_empty in Hs. destruct (incoming !! k); by rewrite Hs.
  - destruct Hs as (k & b & n & Hb & _). by rewrite lookup_empty in Hb.
Qed.

Lemma merge_part_empty_r (base : gmap string Value) :
  merge_part (VMap base) (VMap ∅) = OK base.
Proof.
  pose proof (merge_part_cases base ∅) as Hs.
  destruct (merge_part _ _) as [r|e].
  - f_equal. apply map_eq. intros k. destruct Hs as [_ Hs]. specialize (Hs k).
    rewrite lookup_empty in Hs. destruct (base !! k); by rewrite Hs.
  - destruct Hs as (k & b & n & _ & Hn & _). by rewrite lookup_empty in Hn.
Qed.

End PartMerge.

(** ** The part merge writes to no object it was given *)

Section HeapFrame.

Import Heap.

Lemma keeps_dom {A : Type} (L : gset loc) (m : M A) Q σ :
  keeps L m Q → L ⊆ dom σ → L ⊆ dom (m σ).2.
Proof.
  intros Hm HL l Hl. destruct (Hm σ HL) as [Hk _].
  apply elem_of_dom. rewrite Hk by done. apply elem_of_dom. by apply HL.
Qed.

Lemma keeps_weaken {A : Type} (L : gset loc) (m : M A) (Q R : A → Prop) :
  keeps L m Q → (∀ a, Q a → R a) → keeps L m R.
Proof.
  intros Hm HQR σ HL. destruct (Hm σ HL) as [Hk HQ]. split; [done|].
  intros a Ha. by apply HQR, HQ.
Qed.

Lemma keeps_ret {A : Type} (L : gset loc) (a : A) (Q : A → Prop) :
  Q a → keeps L (ret a) Q.
Proof. intros HQ σ _. split; [done|]. simpl. by intros ? [= <-]. Qed.

Lemma keeps_raise {A : Type} (L : gset loc) (e : Error) (Q : A → Prop) :
  keeps L (raise e) Q.
Proof. intros σ _. split; [done|]. simpl. by intros ? [=]. Qed.

Lemma keeps_bind {A B : Type} (L : gset loc) (m : M A) (k : A → M B)
    (Q : A → Prop) (R : B → Prop) :
  keeps L m Q → (∀ a, Q a → keeps L (k a) R) → keeps L (mbind m k) R.
Proof.
  intros Hm Hk σ HL. unfold mbind.
  pose proof (keeps_dom _ _ _ _ Hm HL) as HL'.
  destruct (Hm σ HL) as [Hkeep HQ].
  destruct (m σ) as [[a|e] σ'] eqn:Hrun; simpl in *.
  - destruct (Hk a (HQ a eq_refl) σ' HL') as [Hkeep' HR]. split; [|done].
    intros l Hl. by rewrite Hkeep', Hkeep.
  - split; [done|]. by intros ? [=].
Qed.

Lemma keeps_get_dict (L : gset loc) (v : val) :
  keeps L (get_dict v) (λ _, True).
Proof.
  intros σ _. unfold get_dict.
  destruct v as [s|l]; [done|]. by destruct (σ !! l) as [[d|x]|].
Qed.

Lemma keeps_keys (L : gset loc) (v : val) : keeps L (keys v) (λ _, True).
Proof.
  eapply keeps_bind; [apply keeps_get_dict|]. intros d _. by apply keeps_ret.
Qed.

Lemma keeps_contains (L : gset loc) (v : val) name :
  keeps L (contains v name) (λ _, True).
Proof.
  eapply keeps_bind; [apply keeps_get_dict|]. intros d _. by apply keeps_ret.
Qed.

Lemma keeps_getitem (L : gset loc) (v : val) name :
  keeps L (getitem v name) (λ _, True).
Proof.
  eapply keeps_bind; [apply keeps_get_dict|]. intros d _.
  destruct (d !! name); [by apply keeps_ret|apply keeps_raise].
Qed.

(** Item assignment writes to the dict it is applied to and to nothing
    else. *)
Lemma keeps_setitem (L : gset loc) (lr : loc) name x :
  lr ∉ L → keeps L (setitem (Ref lr) name x) (λ _, True).
Proof.
  intros Hlr. eapply keeps_bind; [apply keeps_get_dict|]. intros d _ σ _.
  split; [|done]. simpl. intros l Hl.
  rewrite lookup_insert_ne; [done|]. by intros ->.
Qed.

(** A new dict is an object at a location that the store did not hold. *)
Lemma keeps_new_dict (L : gset loc) :
  keeps L new_dict (λ v, ∃ l, v = Ref l ∧ l ∉ L).
Proof.
  intros σ HL. unfold new_dict. simpl.
  assert (fresh (dom σ) ∉ L) as Hfresh.
  { intros Hin. by apply (is_fresh (dom σ)), HL. }
  split.
  - intros l Hl. rewrite lookup_insert_ne; [done|]. by intros <-.
  - intros a [= <-]. eauto.
Qed.

Section WithMerge.

Variable apply_extension_property : val → val → M val.
Variable L : gset loc.

(** The property merge writes to no object at [L]. *)
Hypothesis merge_keeps : ∀ a b, keeps L (apply_extension_property a b) (λ _, True).

Lemma keeps_merge_part_loop properties base_part new_part lr :
  lr ∉ L →
  keeps L (Heap._merge_part_loop apply_extension_property properties
             base_part new_part (Ref lr)) (λ _, True).
Proof.
  intros Hlr. induction properties as [|p ps IH]; simpl.
  - by apply keeps_ret.
  - eapply keeps_bind; [apply keeps_contains|]. intros in_base _.
    eapply keeps_bind; [apply keeps_contains|]. intros in_new _.
    eapply keeps_bind; [|intros _ _; apply IH].
    destruct (in_base && negb in_new); [|destruct (negb in_base && in_new)].
    + eapply keeps_bind; [apply keeps_getitem|]. intros b _.
      by apply keeps_setitem.
    + eapply keeps_bind; [apply keeps_getitem|]. intros n _.
      by apply keeps_setitem.
    + eapply keeps_bind; [apply keeps_getitem|]. intros b _.
      eapply keeps_bind; [apply keeps_getitem|]. intros n _.
      eapply keeps_bind; [apply merge_keeps|]. intros v _.
      by apply keeps_setitem.
Qed.

Lemma keeps_merge_part base_part new_part :
  keeps L (Heap._merge_part apply_extension_property base_part new_part)
    (λ v, ∃ l, v = Ref l ∧ l ∉ L).
Proof.
  unfold Heap._merge_part.
  eapply keeps_bind; [apply keeps_new_dict|]. intros result (lr & -> & Hlr).
  eapply keeps_bind; [apply keeps_keys|]. intros base_keys _.
  eapply keeps_bind; [apply keeps_keys|]. intros new_keys _.
  eapply keeps_bind; [by apply keeps_merge_part_loop|]. intros _ _.
  apply keeps_ret. eauto.
Qed.

End WithMerge.

(** The value the part merge returns is the dict it created first. *)
Lemma merge_part_returns_new_dict (pm : val → val → M val) base_part new_part σ v :
  (Heap._merge_part pm base_part new_part σ).1 = OK v →
  v = Ref (fresh (dom σ)).
Proof.
  unfold Heap._merge_part, mbind, new_dict. simpl.
  repeat (match goal with
          | |- context [match ?m ?s with _ => _ end] =>
              destruct (m s) as [[?|?] ?]; simpl
          end; try done).
  by intros [= <-].
Qed.

(** The statements of the part merge write to the dict it creates and to
    nothing else: when the property merge writes to no object that
    existed before the call, every such object, the two parts and all
    that they reach included, is after the call what it was before, and
    the dict returned is at a location the store did not hold. *)
Lemma merge_part_keeps_store
    (pm : val → val → M val) (base_part new_part : val) (σ : store) :
  (∀ a b σ' l, dom σ ⊆ dom σ' → l ∈ dom σ → (pm a b σ').2 !! l = σ' !! l) →
  (∀ l, l ∈ dom σ →
        (Heap._merge_part pm base_part new_part σ).2 !! l = σ !! l)
  ∧ (∀ v, (Heap._merge_part pm base_part new_part σ).1 = OK v →
          ∃ l, v = Ref l ∧ l ∉ dom σ).
Proof.
  intros Hpm.
  assert (∀ a b, keeps (dom σ) (pm a b) (λ _, True)) as Hkeeps.
  { intros a b σ' Hσ'. split; [|done]. intros l Hl. by apply Hpm. }
  destruct (keeps_merge_part pm (dom σ) Hkeeps base_part new_part σ) as [H1 H2];
    [done|].
  split; [done|].
  intros v Hv. exists (fresh (dom σ)). split.
  - by eapply merge_part_returns_new_dict.
  - apply is_fresh.
Qed.

(** The property merge that allocates its result writes to no object of
    the store. *)
Lemma merge_fresh_keeps (L : gset loc) (a b : val) :
  keeps L (merge_fresh a b) (λ _, True).
Proof.
  intros σ HL. split; [|done]. intros l Hl. unfold merge_fresh.
  destruct a as [s1|l1], b as [s2|l2]; try done.
  - by case_bool_decide.
  - destruct (σ !! l1) as [[?|x]|]; try done.
    destruct (σ !! l2) as [[?|y]|]; try done.
    simpl. rewrite lookup_insert_ne; [done|].
    intros <-. by apply (is_fresh (dom σ)), HL.
Qed.

Example merge_part_keeps_store_merge_fresh :
  (Heap._merge_part merge_fresh (Ref 1%positive) (Ref 2%positive) sample_store).2 !! 1%positive
  = sample_store !! 1%positive.
Proof.
  apply (merge_part_keeps_store merge_fresh (Ref 1%positive) (Ref 2%positive) sample_store).
  - intros a b σ' l Hσ' Hl. by apply (merge_fresh_keeps (dom sample_store)).
  - vm_compute. reflexivity.
Qed.

(** On the sample store the part merge with that property merge returns
    the new dict at location 5, whose shared list is the new list at 6;
    the four objects of the store are as before. *)
Example merge_part_sample_store :
  Heap._merge_part merge_fresh (Ref 1%positive) (Ref 2%positive) sample_store
  = (OK (Ref 5%positive),
     <[6%positive := List [Imm (SStr "curl"); Imm (SStr "python3-venv")]]>
       (<[5%positive := Dict {[ "plugin" := Imm (SStr "python");
                                "stage-packages" := Ref 6%positive;
                                "source" := Imm (SStr ".") ]}]> sample_store)).
Proof. vm_compute. reflexivity. Qed.

(** The part merge writes through the property merge only: with a
    property merge that updates its first argument in place, the list
    the base part refers to is changed by the call. *)
Lemma merge_part_with_merge_in_place :
  sample_store !! 3%positive = Some (List [Imm (SStr "curl")])
  ∧ (Heap._merge_part merge_in_place (Ref 1%positive) (Ref 2%positive) sample_store).2 !! 3%positive
    = Some (List [Imm (SStr "curl"); Imm (SStr "python3-venv")]).
Proof. split; vm_compute; reflexivity. Qed.

End HeapFrame.

(** ** The two embeddings of the part merge agree *)

Section HeapAgrees.

Import Heap.

Lemma run_contains (σ : store) (l : loc) (d : gmap string val) name :
  σ !! l = Some (Dict d) →
  contains (Ref l) name σ = (OK (bool_decide (name ∈ dom d)), σ).
Proof. intros H. unfold contains, mbind, get_dict. by rewrite H. Qed.

Lemma run_getitem (σ : store) (l : loc) (d : gmap string val) name :
  σ !! l = Some (Dict d) →
  getitem (Ref l) name σ
  = (match d !! name with Some x => OK x | None => Err (KeyError name) end, σ).
Proof.
  intros H. unfold getitem, mbind, get_dict. rewrite H.
  by destruct (d !! name).
Qed.

Lemma run_setitem (σ : store) (l : loc) (d : gmap string val) name x :
  σ !! l = Some (Dict d) →
  setitem (Ref l) name x σ = (OK (), <[l := Dict (<[name := x]> d)]> σ).
Proof. intros H. unfold setitem, mbind, get_dict. by rewrite H. Qed.

Lemma bool_decide_in_dom (d : gmap string val) name :
  bool_decide (name ∈ dom d) = match d !! name with Some _ => true | None => false end.
Proof.
  destruct (d !! name) eqn:H.
  - apply bool_decide_eq_true_2, elem_of_dom. eauto.
  - apply bool_decide_eq_false_2. by apply not_elem_of_dom.
Qed.

(** One turn of the loop over the store, with a property merge that
    does not use the store. *)
Lemma heap_merge_part_loop_cons (f : val → val → Result val)
    (lb ln lr : loc) (db dn : gmap string val) (σ : store) p ps res :
  lb ≠ lr → ln ≠ lr →
  σ !! lb = Some (Dict db) → σ !! ln = Some (Dict dn) →
  Heap._merge_part_loop (λ a b σ', (f a b, σ')) (p :: ps)
    (Ref lb) (Ref ln) (Ref lr) (<[lr := Dict res]> σ)
  = match db !! p, dn !! p with
    | Some b, None =>
        Heap._merge_part_loop (λ a b σ', (f a b, σ')) ps
          (Ref lb) (Ref ln) (Ref lr) (<[lr := Dict (<[p := b]> res)]> σ)
    | None, Some n =>
        Heap._merge_part_loop (λ a b σ', (f a b, σ')) ps
          (Ref lb) (Ref ln) (Ref lr) (<[lr := Dict (<[p := n]> res)]> σ)
    | Some b, Some n =>
        match f b n with
        | OK v =>
            Heap._merge_part_loop (λ a b σ', (f a b, σ')) ps
              (Ref lb) (Ref ln) (Ref lr) (<[lr := Dict (<[p := v]> res)]> σ)
        | Err e => (Err e, <[lr := Dict res]> σ)
        end
    | None, None => (Err (KeyError p), <[lr := Dict res]> σ)
    end.
Proof.
  intros Hlb Hln Hb Hn.
  assert (<[lr := Dict res]> σ !! lb = Some (Dict db)) as Hb'
    by (by rewrite lookup_insert_ne).
  assert (<[lr := Dict res]> σ !! ln = Some (Dict dn)) as Hn'
    by (by rewrite lookup_insert_ne).
  assert (∀ x, setitem (Ref lr) p x (<[lr := Dict res]> σ)
               = (OK (), <[lr := Dict (<[p := x]> res)]> σ)) as Hset.
  { intros x. erewrite run_setitem by apply lookup_insert_eq.
    by rewrite insert_insert_eq. }
  cbn [Heap._merge_part_loop].
  unfold mbind at 1. rewrite (run_contains _ _ _ _ Hb').
  unfold mbind at 1. rewrite (run_contains _ _ _ _ Hn').
  rewrite !bool_decide_in_dom. unfold mbind at 1.
  destruct (db !! p) as [b|] eqn:Hbp, (dn !! p) as [n|] eqn:Hnp; simpl.
  - unfold mbind at 1. rewrite (run_getitem _ _ _ _ Hb'), Hbp.
    unfold mbind at 1. rewrite (run_getitem _ _ _ _ Hn'), Hnp.
    unfold mbind at 1. destruct (f b n) as [v|e]; [|done].
    by rewrite Hset.
  - unfold mbind at 1. by rewrite (run_getitem _ _ _ _ Hb'), Hbp, Hset.
  - unfold mbind at 1. by rewrite (run_getitem _ _ _ _ Hn'), Hnp, Hset.
  - unfold mbind at 1. by rewrite (run_getitem _ _ _ _ Hb'), Hbp.
Qed.

(** With a property merge that does not use the store, the loop over the
    store fills the result dict with what the loop over mappings
    computes from the two dicts. *)
Lemma heap_merge_part_loop_pure (f : val → val → Result val)
    (lb ln lr : loc) (db dn : gmap string val) (σ : store) properties res :
  lb ≠ lr → ln ≠ lr →
  σ !! lb = Some (Dict db) → σ !! ln = Some (Dict dn) →
  match Flask._merge_part_loop f properties db dn res with
  | OK r =>
      Heap._merge_part_loop (λ a b σ', (f a b, σ')) properties
        (Ref lb) (Ref ln) (Ref lr) (<[lr := Dict res]> σ)
      = (OK (), <[lr := Dict r]> σ)
  | Err e =>
      (Heap._merge_part_loop (λ a b σ', (f a b, σ')) properties
         (Ref lb) (Ref ln) (Ref lr) (<[lr := Dict res]> σ)).1
      = Err e
  end.
Proof.
  intros Hlb Hln Hb Hn. revert res.
  induction properties as [|p ps IH]; intros res; [done|].
  rewrite (heap_merge_part_loop_cons f lb ln lr db dn) by done.
  cbn [Flask._merge_part_loop].
  destruct (db !! p) as [b|], (dn !! p) as [n|]; try apply IH; [|done].
  destruct (f b n) as [v|e]; simpl; [apply IH|done].
Qed.

(** The part merge over the store creates the result dict and runs the
    loop over the names of the two dicts. *)
Lemma heap_merge_part_run (pm : val → val → M val)
    (lb ln : loc) (db dn : gmap string val) (σ : store) :
  σ !! lb = Some (Dict db) → σ !! ln = Some (Dict dn) →
  Heap._merge_part pm (Ref lb) (Ref ln) σ
  = match Heap._merge_part_loop pm (elements (dom db ∪ dom dn))
            (Ref lb) (Ref ln) (Ref (fresh (dom σ)))
            (<[fresh (dom σ) := Dict ∅]> σ) with
    | (OK _, σ') => (OK (Ref (fresh (dom σ))), σ')
    | (Err e, σ') => (Err e, σ')
    end.
Proof.
  intros Hb Hn.
  assert (∀ l o, σ !! l = Some o → fresh (dom σ) ≠ l) as Hfresh.
  { intros l o Hl <-. apply (is_fresh (dom σ)), elem_of_dom. eauto. }
  unfold Heap._merge_part.
  unfold mbind at 1. unfold new_dict.
  unfold mbind at 1. unfold keys, mbind at 1, get_dict.
  rewrite lookup_insert_ne, Hb by eauto. simpl.
  unfold mbind at 1. unfold mbind at 1.
  rewrite lookup_insert_ne, Hn by eauto. simpl.
  unfold mbind at 1.
  by destruct (Heap._merge_part_loop _ _ _ _ _ _) as [[[]|e'] σ'].
Qed.

(** The part merge over the store, with a property merge that does not
    use the store, returns a new dict that holds the mapping the part
    merge over mappings computes, or fails with the same error. *)
Lemma heap_merge_part_pure (f : val → val → Result val)
    (lb ln : loc) (db dn : gmap string val) (σ : store) :
  σ !! lb = Some (Dict db) → σ !! ln = Some (Dict dn) →
  match Flask._merge_part_loop f (elements (dom db ∪ dom dn)) db dn ∅ with
  | OK r =>
      Heap._merge_part (λ a b σ', (f a b, σ')) (Ref lb) (Ref ln) σ
      = (OK (Ref (fresh (dom σ))), <[fresh (dom σ) := Dict r]> σ)
  | Err e =>
      (Heap._merge_part (λ a b σ', (f a b, σ')) (Ref lb) (Ref ln) σ).1 = Err e
  end.
Proof.
  intros Hb Hn.
  assert (∀ l o, σ !! l = Some o → l ≠ fresh (dom σ)) as Hfresh.
  { intros l o Hl ->. apply (is_fresh (dom σ)), elem_of_dom. eauto. }
  pose proof (heap_merge_part_loop_pure f lb ln (fresh (dom σ)) db dn σ
                (elements (dom db ∪ dom dn)) ∅
                (Hfresh _ _ Hb) (Hfresh _ _ Hn) Hb Hn) as Hloop.
  rewrite (heap_merge_part_run _ lb ln db dn) by done.
  destruct (Flask._merge_part_loop f _ db dn ∅) as [r|e].
  - by rewrite Hloop.
  - destruct (Heap._merge_part_loop _ _ _ _ _ _) as [[[]|e'] σ'];
      simpl in *; congruence.
Qed.

End HeapAgrees.

(** ** Induction on values *)

Lemma vsize_elem_of (l : list Value) (x : Value) :
  x ∈ l → vsize x < vsize (VList l).
Proof.
  simpl. induction 1 as [x l|x y l _ IH]; simpl; lia.
Qed.

Lemma vsize_lookup (m : gmap string Value) (k : string) (x : Value) :
  m !! k = Some x → vsize x < vsize (VMap m).
Proof.
  intros Hk. simpl.
  rewrite (map_fold_delete_L _ _ k x m); [lia| |done].
  intros. lia.
Qed.

Lemma Value_ind_nested (P : Value → Prop) :
  (∀ s, P (VScalar s)) →
  (∀ l, Forall P l → P (VList l)) →
  (∀ m, map_Forall (λ _, P) m → P (VMap m)) →
  ∀ v, P v.
Proof.
  intros Hs Hl Hm v. remember (vsize v) as n eqn:Hn. revert v Hn.
  induction n as [n IH] using lt_wf_ind. intros v ->.
  destruct v as [s|l|m].
  - apply Hs.
  - apply Hl, Forall_forall. intros x Hx.
    eapply IH; [|done]. by apply vsize_elem_of.
  - apply Hm. intros k x Hk.
    eapply IH; [|done]. by eapply vsize_lookup.
Qed.

(** ** The property merge on mappings *)

Lemma PropertyMerger_merge_maps (acc : bool) (a b : gmap string Value) :
  PropertyMerger_merge acc (VMap a) (VMap b)
  = do m <- collect (merge (merged_property (PropertyMerger_merge acc)) a b);
    OK (VMap m).
Proof. reflexivity. Qed.

Lemma merged_property_diag (pm : Value → Value → Result Value) :
  merged_property pm None None = None.
Proof. reflexivity. Qed.

Lemma collect_merge_OK (pm : Value → Value → Result Value)
    (a b r : gmap string Value) :
  collect (merge (merged_property pm) a b) = OK r
  ↔ ∀ k, OK <$> r !! k = merged_property pm (a !! k) (b !! k).
Proof.
  rewrite collect_OK. split.
  - intros H k. rewrite <-lookup_fmap, <-H, lookup_merge.
    by destruct (a !! k), (b !! k).
  - intros H. apply map_eq. intros k.
    rewrite lookup_merge, lookup_fmap, H.
    by destruct (a !! k), (b !! k).
Qed.

Lemma collect_merge_Err (pm : Value → Value → Result Value)
    (a b : gmap string Value) e :
  collect (merge (merged_property pm) a b) = Err e →
  ∃ k x y, a !! k = Some x ∧ b !! k = Some y ∧ pm x y = Err e.
Proof.
  intros [k Hk]%collect_Err. rewrite lookup_merge in Hk.
  exists k. destruct (a !! k) as [x|], (b !! k) as [y|]; simplify_eq/=; eauto.
Qed.

Lemma apply_extension_property_maps_OK (a b : gmap string Value) (v : Value) :
  apply_extension_property (VMap a) (VMap b) = OK v
  ↔ ∃ r, v = VMap r
         ∧ ∀ k, OK <$> r !! k
                = merged_property apply_extension_property (a !! k) (b !! k).
Proof.
  unfold apply_extension_property. rewrite PropertyMerger_merge_maps, bind_OK.
  split.
  - intros (r & Hr & [= <-]). exists r. split; [done|].
    by apply collect_merge_OK.
  - intros (r & -> & Hr). exists r. split; [|done].
    by apply collect_merge_OK.
Qed.

(** On mappings the part merge and the property merge agree. *)
Lemma merge_part_property_merge (a b r : gmap string Value) :
  Flask._merge_part apply_extension_property (VMap a) (VMap b) = OK r
  ↔ apply_extension_property (VMap a) (VMap b) = OK (VMap r).
Proof.
  rewrite apply_extension_property_maps_OK. split.
  - intros H. exists r. split; [done|]. intros k.
    by apply merge_part_lookup.
  - intros (r' & [= <-] & Hr).
    assert (is_OK (Flask._merge_part apply_extension_property (VMap a) (VMap b)))
      as [r' Hr'].
    { apply merge_part_is_OK. intros k x y Hx Hy. specialize (Hr k).
      rewrite Hx, Hy in Hr. simpl in Hr.
      destruct (r !! k); simplify_eq/=. by eexists. }
    rewrite Hr'. f_equal. apply map_eq. intros k.
    pose proof (merge_part_lookup _ _ _ _ k Hr') as Hk.
    rewrite <-Hr in Hk. destruct (r' !! k), (r !! k); by simplify_eq/=.
Qed.

(** ** Merging twice: what a merge has absorbed stays absorbed *)

Lemma dedup_app_absorb (a b : list Value) :
  (∀ x, x ∈ b → x ∈ a) → dedup (a ++ b) = dedup a.
Proof.
  intros Hsub. rewrite dedup_app.
  assert (filter (λ y, y ∉ a) b = []) as ->; [|by rewrite app_nil_r].
  induction b as [|y b IH]; [done|].
  rewrite filter_cons_False by (intros Hy; apply Hy, Hsub; left).
  apply IH. intros x Hx. apply Hsub. by right.
Qed.

Lemma normal_scalar (s : Scalar) : normal (VScalar s).
Proof. unfold normal, apply_extension_property. simpl. by rewrite decide_True. Qed.

Lemma normal_list (l : list Value) : NoDup l → normal (VList l).
Proof.
  intros Hl. unfold normal, apply_extension_property. simpl.
  by rewrite dedup_app_absorb, dedup_NoDup_id.
Qed.

Lemma normal_map (m : gmap string Value) :
  normal (VMap m) ↔ map_Forall (λ _, normal) m.
Proof.
  unfold normal at 1. rewrite apply_extension_property_maps_OK. split.
  - intros (r & [= <-] & Hr) k v Hk. specialize (Hr k).
    rewrite Hk in Hr. simpl in Hr. by injection Hr.
  - intros Hall. exists m. split; [done|]. intros k.
    destruct (m !! k) as [v|] eqn:Hk; [|done]. simpl.
    by rewrite (Hall k v Hk).
Qed.

(** A value merged with itself gives a normal value. *)
Lemma merge_self_normal (a x : Value) :
  apply_extension_property a a = OK x → normal x.
Proof.
  revert x. induction a as [s|l _|m IH] using Value_ind_nested; intros x H.
  - unfold apply_extension_property in H. simpl in H.
    rewrite decide_True in H by done. injection H as <-. apply normal_scalar.
  - unfold apply_extension_property in H. simpl in H. injection H as <-.
    apply normal_list, NoDup_dedup.
  - apply apply_extension_property_maps_OK in H as (r & -> & Hr).
    apply normal_map. intros k v Hk. specialize (Hr k).
    rewrite Hk in Hr. destruct (m !! k) as [y|] eqn:Hy; [|done].
    simpl in Hr. eapply (IH k y Hy). by injection Hr.
Qed.

(** Merging a normal value [d] into [a], and the outcome into [a]
    again, gives a normal value that has absorbed [d]. *)
Lemma merge_absorb (a d x c : Value) :
  normal d →
  apply_extension_property a d = OK x →
  apply_extension_property a x = OK c →
  apply_extension_property c d = OK c ∧ normal c.
Proof.
  revert d x c. induction a as [s|l _|m IH] using Value_ind_nested;
    intros d x c Hd Hx Hc.
  - destruct d as [s'| |]; try done.
    unfold apply_extension_property in Hx. simpl in Hx.
    destruct (decide (s = s')) as [<-|]; [|by destruct s, s'].
    injection Hx as <-.
    unfold apply_extension_property in Hc. simpl in Hc.
    rewrite decide_True in Hc by done. injection Hc as <-.
    split; apply normal_scalar.
  - destruct d as [|ld|]; try done.
    unfold apply_extension_property in Hx. simpl in Hx. injection Hx as <-.
    unfold apply_extension_property in Hc. simpl in Hc. injection Hc as <-.
    split; [|apply normal_list, NoDup_dedup].
    unfold apply_extension_property. simpl. do 2 f_equal.
    rewrite dedup_app_absorb; [apply dedup_idemp|].
    intros y Hy. rewrite !elem_of_dedup, !elem_of_app, elem_of_dedup, elem_of_app.
    tauto.
  - destruct d as [| |md]; try done.
    apply apply_extension_property_maps_OK in Hx as (mx & -> & Hx).
    apply apply_extension_property_maps_OK in Hc as (mc & -> & Hc).
    apply normal_map in Hd.
    assert (∀ k, OK <$> mc !! k
                 = merged_property apply_extension_property (mc !! k) (md !! k)
                 ∧ ∀ ck, mc !! k = Some ck → normal ck) as Hk.
    { intros k. specialize (Hx k). specialize (Hc k).
      destruct (m !! k) as [y|] eqn:Hy, (md !! k) as [z|] eqn:Hz; simpl in *.
      - destruct (mx !! k) as [xk|]; [|done]. simpl in *.
        destruct (mc !! k) as [ck|]; [|done]. simpl in *.
        destruct (IH k y Hy z xk ck) as [Hcz Hnc];
          [by eapply Hd|congruence|congruence|].
        split; [by rewrite Hcz|]. by intros ? [= <-].
      - destruct (mx !! k) as [xk|]; [|done]. simpl in *.
        assert (xk = y) as -> by congruence.
        destruct (mc !! k) as [ck|]; [|done]. simpl in *.
        split; [done|]. intros ? [= <-].
        apply (merge_self_normal y). congruence.
      - destruct (mx !! k) as [xk|]; [|done]. simpl in *.
        assert (xk = z) as -> by congruence.
        destruct (mc !! k) as [ck|]; [|done]. simpl in *.
        assert (ck = z) as -> by congruence.
        split; [by rewrite (Hd k z Hz)|]. intros ? [= <-]. by eapply Hd.
      - destruct (mx !! k); [done|]. simpl in *.
        destruct (mc !! k); [done|]. done. }
    split.
    + apply apply_extension_property_maps_OK. exists mc. split; [done|].
      intros k. apply Hk.
    + apply normal_map. intros k ck Hck. by apply (Hk k).
Qed.

(** ** Merging parts by name *)

Lemma merge_parts_unfold (P Q : gmap string Value) :
  merge_parts P Q = collect (merge (merged_property mergeParts) P Q).
Proof. reflexivity. Qed.

Lemma mergeParts_OK (p q r : Value) :
  mergeParts p q = OK r
  ↔ ∃ a b c, p = VMap a ∧ q = VMap b ∧ r = VMap c
             ∧ apply_extension_property p q = OK r.
Proof.
  unfold mergeParts. rewrite rmap_OK. split.
  - intros (c & Hc & ->). destruct p as [| |a]; try done.
    destruct q as [| |b]; try done.
    exists a, b, c. split_and!; try done. by apply merge_part_property_merge.
  - intros (a & b & c & -> & -> & -> & H). exists c. split; [|done].
    by apply merge_part_property_merge.
Qed.

Lemma merge_parts_OK (P Q R : gmap string Value) :
  merge_parts P Q = OK R
  ↔ ∀ k, OK <$> R !! k = merged_property mergeParts (P !! k) (Q !! k).
Proof. rewrite merge_parts_unfold. apply collect_merge_OK. Qed.

(** A successful merge of parts is the property merge of the two parts
    mappings. *)
Lemma merge_parts_property_merge (P Q R : gmap string Value) :
  merge_parts P Q = OK R →
  apply_extension_property (VMap P) (VMap Q) = OK (VMap R).
Proof.
  rewrite merge_parts_OK. intros H.
  apply apply_extension_property_maps_OK. exists R. split; [done|].
  intros k. rewrite H.
  destruct (P !! k) as [p|] eqn:Hp, (Q !! k) as [q|] eqn:Hq; try done.
  simpl. specialize (H k). rewrite Hp, Hq in H. simpl in H.
  destruct (R !! k) as [r|]; [|done]. simpl in H.
  assert (mergeParts p q = OK r) as Hm by congruence.
  rewrite Hm. apply mergeParts_OK in Hm as (a & b & c & -> & -> & -> & Hm).
  by rewrite Hm.
Qed.

Lemma property_merge_merge_parts (P Q R : gmap string Value) :
  all_mappings P → all_mappings Q →
  apply_extension_property (VMap P) (VMap Q) = OK (VMap R) →
  merge_parts P Q = OK R.
Proof.
  intros HP HQ (R' & [= <-] & H)%apply_extension_property_maps_OK.
  apply merge_parts_OK. intros k. rewrite H.
  destruct (P !! k) as [p|] eqn:Hp, (Q !! k) as [q|] eqn:Hq; try done.
  simpl. f_equal. specialize (H k). rewrite Hp, Hq in H. simpl in H.
  destruct (R !! k) as [r|]; [|done]. simpl in H.
  assert (apply_extension_property p q = OK r) as Hm by congruence.
  rewrite Hm. symmetry.
  destruct (HP _ _ Hp) as [a ->]. destruct (HQ _ _ Hq) as [b ->].
  apply apply_extension_property_maps_OK in Hm as Hm'.
  destruct Hm' as (c & -> & _).
  apply mergeParts_OK. by exists a, b, c.
Qed.

(** When every name of [P] is a name of [Q], and the parts that only [Q]
    has are mappings, the merged parts are all mappings. *)
Lemma merge_parts_all_mappings (P Q R : gmap string Value) :
  merge_parts P Q = OK R →
  (∀ k, is_Some (P !! k) → is_Some (Q !! k)) →
  (∀ k q, P !! k = None → Q !! k = Some q → ∃ m, q = VMap m) →
  all_mappings R.
Proof.
  rewrite merge_parts_OK. intros H Hdom HQ k r Hr.
  specialize (H k). rewrite Hr in H. simpl in H.
  destruct (P !! k) as [p|] eqn:Hp, (Q !! k) as [q|] eqn:Hq; simpl in H.
  - assert (mergeParts p q = OK r) as Hm by congruence.
    apply mergeParts_OK in Hm as (a & b & c & _ & _ & -> & _). eauto.
  - destruct (Hdom k) as [? ?]; [by rewrite Hp|congruence].
  - apply (HQ k q Hp) in Hq as [m ->]. exists m. congruence.
  - done.
Qed.

Lemma merge_parts_empty_r (P : gmap string Value) : merge_parts P ∅ = OK P.
Proof.
  apply merge_parts_OK. intros k. rewrite lookup_empty.
  by destruct (P !! k).
Qed.

(** ** Merging a snippet into a document *)

Lemma merge_snippet_OK (document snippet d : gmap string Value) :
  merge_snippet document snippet = OK d
  ↔ ∃ updates,
      (∀ k, OK <$> updates !! k = merge_key document k <$> snippet !! k)
      ∧ d = updates ∪ document.
Proof.
  unfold merge_snippet. rewrite bind_OK. split.
  - intros (u & Hu & [= <-]). exists u. split; [|done]. intros k.
    apply collect_OK in Hu.
    rewrite <-lookup_fmap, <-Hu, map_lookup_imap.
    by destruct (snippet !! k).
  - intros (u & Hu & ->). exists u. split; [|done].
    apply collect_OK, map_eq. intros k.
    rewrite map_lookup_imap, lookup_fmap, Hu. by destruct (snippet !! k).
Qed.

Lemma merge_snippet_Err (document snippet : gmap string Value) e :
  merge_snippet document snippet = Err e →
  ∃ k v, snippet !! k = Some v ∧ merge_key document k v = Err e.
Proof.
  unfold merge_snippet. intros [H|(u & _ & [=])]%bind_Err.
  apply collect_Err in H as [k Hk]. rewrite map_lookup_imap in Hk.
  destruct (snippet !! k) as [v|] eqn:Hv; simplify_eq/=. eauto.
Qed.

(** A snippet whose keys merge into the document merges as a whole. *)
Lemma merge_snippet_total (document snippet : gmap string Value) :
  (∀ k v, snippet !! k = Some v → is_OK (merge_key document k v)) →
  is_OK (merge_snippet document snippet).
Proof.
  intros Hall. destruct (merge_snippet document snippet) as [d|e] eqn:H;
    [by eexists|].
  apply merge_snippet_Err in H as (k & v & Hv & He).
  destruct (Hall k v Hv) as [? ?]. congruence.
Qed.

(** A snippet that holds only the parts the document has already
    absorbed changes nothing. *)
Lemma merge_snippet_parts_absorbed (d P Q : gmap string Value) :
  d !! "parts" = Some (VMap P) →
  merge_parts P Q = OK P →
  merge_snippet d {[ "parts" := VMap Q ]} = OK d.
Proof.
  intros Hd HQ. apply merge_snippet_OK. exists {[ "parts" := VMap P ]}. split.
  - intros k. destruct (decide (k = "parts")) as [->|Hk].
    + rewrite !lookup_singleton_eq. simpl. unfold merge_key. rewrite Hd.
      simpl. by rewrite HQ.
    + by rewrite !lookup_singleton_ne.
  - apply map_eq. intros k. destruct (decide (k = "parts")) as [->|Hk].
    + by rewrite lookup_union_l', lookup_singleton_eq
        by (rewrite lookup_singleton_eq; eauto).
    + by rewrite lookup_union_r by (by rewrite lookup_singleton_ne).
Qed.

(** An empty per-part snippet patches no part. *)
Lemma patch_parts_empty (existing : gset string) (d P : gmap string Value) :
  d !! "parts" = Some (VMap P) →
  (∀ name p, name ∈ existing → P !! name = Some p → ∃ m, p = VMap m) →
  patch_parts existing (λ _, OK ∅) d = OK d.
Proof.
  intros Hd HP. unfold patch_parts. rewrite Hd. simpl.
  assert (collect (map_imap (λ name part,
            Some (if decide (name ∈ existing)
                  then mergeParts part (VMap ∅)
                  else OK part)) P) = OK P) as ->.
  { apply collect_OK, map_eq. intros name.
    rewrite map_lookup_imap, lookup_fmap.
    destruct (P !! name) as [p|] eqn:Hp; [|done]. simpl.
    case_decide as Hin; [|done].
    destruct (HP _ _ Hin Hp) as [m ->]. simpl.
    unfold mergeParts. by rewrite merge_part_empty_r. }
  simpl. by rewrite insert_id.
Qed.

(** ** The root snippet of the Flask extension *)

Lemma get_root_snippet_unfold (pm : Value → Value → Result Value) (self : Flask.t) :
  Flask.get_root_snippet pm self
  = do cp <- Flask.keys_of (default (VMap ∅) (Flask.yaml_data self !! "parts"));
    do np <- Flask._gen_new_parts pm self;
    OK (<["parts" := VMap (np ∪ cp)]> (root_defaults (Flask.yaml_data self))).
Proof. reflexivity. Qed.

Lemma parts_is_mapping_keys_of (document : gmap string Value) :
  parts_is_mapping document →
  Flask.keys_of (default (VMap ∅) (document !! "parts")) = OK (parts_of document).
Proof.
  unfold parts_is_mapping, parts_of.
  by destruct (document !! "parts") as [[| |m]|].
Qed.

Lemma keys_of_parts_is_mapping (document : gmap string Value) cp :
  Flask.keys_of (default (VMap ∅) (document !! "parts")) = OK cp →
  parts_is_mapping document ∧ cp = parts_of document.
Proof.
  unfold parts_is_mapping, parts_of.
  destruct (document !! "parts") as [[| |m]|]; simpl; by intros [= <-].
Qed.

Lemma merge_existing_part_unfold (pm : Value → Value → Result Value)
    (self : Flask.t) name part_def :
  parts_is_mapping (Flask.yaml_data self) →
  Flask._merge_existing_part pm self name part_def
  = Flask._merge_part pm
      (default (VMap ∅) (parts_of (Flask.yaml_data self) !! name)) part_def.
Proof.
  unfold Flask._merge_existing_part, parts_is_mapping, parts_of.
  by destruct (Flask.yaml_data self !! "parts") as [[| |m]|].
Qed.

(** The parts entry of the root snippet is the parts of the document
    merged, by name, with the two parts of the extension. *)
Lemma gen_new_parts_merge_parts (root : ProjectRoot) (document np : gmap string Value) :
  parts_is_mapping document →
  Flask._gen_new_parts apply_extension_property (Flask.mk document root) = OK np →
  requirements_txt_exists root = true
  ∧ merge_parts (parts_of document) (flask_parts root) = OK (np ∪ parts_of document).
Proof.
  intros Hpm. unfold Flask._gen_new_parts. simpl.
  destruct (requirements_txt_exists root); [simpl|done].
  rewrite !merge_existing_part_unfold by done. simpl.
  intros (dep & Hdep & (inst & Hinst & [= <-])%bind_OK)%bind_OK.
  split; [done|]. apply merge_parts_OK. intros k.
  set (cp := parts_of document) in *.
  unfold flask_parts, Flask.dependencies_part_name, Flask.install_app_part_name in *.
  destruct (decide (k = "flask/dependencies")) as [->|Hk1].
  { rewrite lookup_union_l' by (by simplify_map_eq).
    rewrite !lookup_insert_eq.
    destruct (cp !! "flask/dependencies") as [p|]; simpl in *.
    - unfold mergeParts. by rewrite Hdep.
    - rewrite merge_part_empty_l in Hdep. by injection Hdep as <-. }
  destruct (decide (k = "flask/install-app")) as [->|Hk2].
  { rewrite lookup_union_l' by (by simplify_map_eq).
    rewrite !(lookup_insert_ne _ "flask/dependencies") by done.
    rewrite !lookup_singleton_eq.
    destruct (cp !! "flask/install-app") as [p|]; simpl in *.
    - unfold mergeParts. by rewrite Hinst.
    - rewrite merge_part_empty_l in Hinst. by injection Hinst as <-. }
  rewrite lookup_union_r by (by simplify_map_eq).
  rewrite !lookup_insert_ne, lookup_singleton_ne by done.
  by destruct (cp !! k).
Qed.

(** ** The files of the project directory *)

Lemma os_path_join_app (f : string) :
  os_path_join "srv/flask/app" f
  = if startswith f "/" then f else "srv/flask/app/" +:+ f.
Proof. unfold os_path_join. by destruct (startswith f "/"). Qed.

Lemma os_path_join_app_inj : Inj (=) (=) (os_path_join "srv/flask/app").
Proof.
  intros f g. rewrite !os_path_join_app.
  destruct (startswith f "/") eqn:Hf, (startswith g "/") eqn:Hg; [done| | |].
  - intros ->. done.
  - intros <-. done.
  - intros H. by simplify_eq/=.
Qed.

(** Setting a key of an insertion-ordered dict whose values are a
    function of the keys keeps it so, and keeps the keys distinct. *)
Lemma odict_set_keys {A : Type} (g : string → A) (ks : list string) (f : string) :
  odict_set f (g f) ((λ k, (k, g k)) <$> ks)
  = (λ k, (k, g k)) <$> (if decide (f ∈ ks) then ks else ks ++ [f]).
Proof.
  induction ks as [|k ks IH].
  - by rewrite decide_False by apply not_elem_of_nil.
  - rewrite fmap_cons. cbn [odict_set].
    destruct (decide (f = k)) as [->|Hne].
    + by rewrite decide_True by left.
    + rewrite IH. destruct (decide (f ∈ ks)) as [Hin|Hnin].
      * by rewrite decide_True by (by right).
      * by rewrite decide_False by (rewrite elem_of_cons; tauto).
Qed.

Lemma foldl_odict_set_keys {A : Type} (g : string → A) (files ks : list string) :
  NoDup ks →
  ∃ ks', foldl (λ d f, odict_set f (g f) d) ((λ k, (k, g k)) <$> ks) files
         = (λ k, (k, g k)) <$> ks'
         ∧ NoDup ks'.
Proof.
  revert ks. induction files as [|f files IH]; intros ks Hks; simpl.
  - eauto.
  - rewrite odict_set_keys. apply IH.
    destruct (decide (f ∈ ks)); [done|].
    apply NoDup_app. split_and!; [done| |apply NoDup_singleton].
    intros x Hx ->%list_elem_of_singleton. done.
Qed.

Lemma renaming_map_keys (root : ProjectRoot) :
  ∃ ks, Flask.renaming_map root = (λ k, (k, os_path_join "srv/flask/app" k)) <$> ks
        ∧ NoDup ks.
Proof.
  unfold Flask.renaming_map.
  apply (foldl_odict_set_keys (os_path_join "srv/flask/app") _ []). constructor.
Qed.

(** The staged paths are distinct. *)
Lemma renaming_map_values_NoDup (root : ProjectRoot) :
  NoDup (odict_values (Flask.renaming_map root)).
Proof.
  destruct (renaming_map_keys root) as (ks & -> & Hks).
  unfold odict_values. rewrite <-list_fmap_compose.
  by apply (@NoDup_fmap_2 _ _ _ os_path_join_app_inj).
Qed.

(** ** The parts of the extension are normal *)

Lemma VStr_inj : Inj (=) (=) VStr.
Proof. by intros s t [= ->]. Qed.

Lemma normal_dependencies_part : normal (VMap Flask.dependencies_part).
Proof. vm_compute. reflexivity. Qed.

Lemma normal_install_app_part (root : ProjectRoot) :
  normal (VMap (Flask.install_app_part root)).
Proof.
  apply normal_map. unfold Flask.install_app_part.
  repeat apply map_Forall_insert_2; [..|apply map_Forall_empty].
  - apply normal_scalar.
  - apply normal_scalar.
  - apply normal_map. intros k v Hk.
    apply elem_of_list_to_map_2, list_elem_of_fmap in Hk as ([k' s] & [= -> ->] & _).
    apply normal_scalar.
  - apply normal_list, (@NoDup_fmap_2 _ _ _ VStr_inj), renaming_map_values_NoDup.
Qed.

Lemma normal_flask_parts (root : ProjectRoot) : normal (VMap (flask_parts root)).
Proof.
  apply normal_map. unfold flask_parts.
  repeat apply map_Forall_insert_2; [..|apply map_Forall_empty].
  - apply normal_dependencies_part.
  - apply normal_install_app_part.
Qed.

Lemma all_mappings_flask_parts (root : ProjectRoot) : all_mappings (flask_parts root).
Proof.
  intros name p. unfold flask_parts.
  rewrite lookup_insert_Some, lookup_singleton_Some. naive_solver.
Qed.

Lemma merge_parts_flask_parts_self (root : ProjectRoot) :
  merge_parts (flask_parts root) (flask_parts root) = OK (flask_parts root).
Proof.
  apply property_merge_merge_parts; try apply all_mappings_flask_parts.
  apply normal_flask_parts.
Qed.

Lemma merge_parts_empty_l (Q : gmap string Value) : merge_parts ∅ Q = OK Q.
Proof.
  apply merge_parts_OK. intros k. rewrite lookup_empty. by destruct (Q !! k).
Qed.

(** ** Applying the Flask extension *)

Lemma merge_parts_gen_new_parts (root : ProjectRoot) (document P : gmap string Value) :
  requirements_txt_exists root = true →
  parts_is_mapping document →
  merge_parts (parts_of document) (flask_parts root) = OK P →
  ∃ np, Flask._gen_new_parts apply_extension_property (Flask.mk document root) = OK np
        ∧ np ∪ parts_of document = P.
Proof.
  intros Hreq Hpm HP.
  assert (∀ name def, flask_parts root !! name = Some (VMap def) →
    is_OK (Flask._merge_part apply_extension_property
             (default (VMap ∅) (parts_of document !! name)) (VMap def))) as Hpart.
  { intros name def Hname. rewrite merge_parts_OK in HP. specialize (HP name).
    rewrite Hname in HP.
    destruct (parts_of document !! name) as [p|]; simpl in *.
    - destruct (P !! name) as [r|]; [|done]. simpl in HP.
      assert (mergeParts p (VMap def) = OK r) as Hm by congruence.
      apply rmap_OK in Hm as (c & Hc & _). by exists c.
    - rewrite merge_part_empty_l. by eexists. }
  destruct (Hpart Flask.dependencies_part_name Flask.dependencies_part)
    as [dep Hdep]; [done|].
  destruct (Hpart Flask.install_app_part_name (Flask.install_app_part root))
    as [inst Hinst]; [done|].
  assert (Flask._gen_new_parts apply_extension_property (Flask.mk document root)
          = OK {[ Flask.dependencies_part_name := VMap dep;
                  Flask.install_app_part_name := VMap inst ]}) as Hgen.
  { unfold Flask._gen_new_parts. simpl. rewrite Hreq. simpl.
    rewrite !merge_existing_part_unfold by done. simpl.
    by rewrite Hdep, Hinst. }
  eexists. split; [done|].
  apply gen_new_parts_merge_parts in Hgen as [_ Hgen]; [|done]. congruence.
Qed.

Lemma flask_root_snippet_OK (root : ProjectRoot) (document S : gmap string Value) :
  getRootSnippet (flask root) document = OK S
  ↔ requirements_txt_exists root = true
    ∧ parts_is_mapping document
    ∧ ∃ P, merge_parts (parts_of document) (flask_parts root) = OK P
           ∧ S = <["parts" := VMap P]> (root_defaults document).
Proof.
  simpl. rewrite get_root_snippet_unfold. simpl. split.
  - intros (cp & [Hpm ->]%keys_of_parts_is_mapping
            & (np & Hnp & [= <-])%bind_OK)%bind_OK.
    apply gen_new_parts_merge_parts in Hnp as [Hreq Hnp]; [|done]. eauto 10.
  - intros (Hreq & Hpm & P & HP & ->).
    rewrite parts_is_mapping_keys_of by done. simpl.
    destruct (merge_parts_gen_new_parts root document P) as (np & -> & <-); done.
Qed.

(** The defaults name only keys the document lacks, and never the parts. *)
Lemma root_defaults_lookup (document : gmap string Value) k v :
  root_defaults document !! k = Some v → document !! k = None ∧ k ≠ "parts".
Proof.
  unfold root_defaults. rewrite !bool_decide_not_in_dom.
  destruct (document !! "run_user") eqn:?, (document !! "build-base") eqn:?,
    (document !! "platforms") eqn:?; simpl;
    repeat case_bool_decide; simpl;
    rewrite ?lookup_insert_Some, ?lookup_empty; naive_solver.
Qed.

(** Once the defaults are merged in, no default is left to fill in. *)
Lemma root_defaults_fixed (document : gmap string Value) (parts : Value) :
  root_defaults (<["parts" := parts]> (root_defaults document ∪ document)) = ∅.
Proof.
  set (d1 := <["parts" := parts]> (root_defaults document ∪ document)).
  assert (d1 !! "base" = document !! "base") as Hbase.
  { unfold d1. rewrite lookup_insert_ne by done.
    apply lookup_union_r.
    destruct (root_defaults document !! "base") as [v|] eqn:Hv; [|done].
    exfalso. revert Hv. unfold root_defaults.
    repeat case_bool_decide; simpl; repeat case_bool_decide;
      rewrite ?lookup_insert_Some, ?lookup_empty; naive_solver. }
  assert (∀ k, k ≠ "parts" →
            d1 !! k = match root_defaults document !! k with
                      | Some v => Some v
                      | None => document !! k
                      end) as Hd1.
  { intros k Hk. unfold d1. rewrite lookup_insert_ne by done.
    rewrite lookup_union. by destruct (root_defaults document !! k), (document !! k). }
  unfold root_defaults at 1. rewrite !bool_decide_not_in_dom, Hbase.
  rewrite !Hd1 by done. unfold root_defaults.
  rewrite !bool_decide_not_in_dom.
  destruct (document !! "run_user"), (document !! "build-base"),
    (document !! "platforms"); simpl;
    repeat case_bool_decide; simpl; by simplify_map_eq.
Qed.

(** What one application of the extension does to a document. *)
Lemma flask_first_application (root : ProjectRoot) (document doc1 : gmap string Value) :
  (do S <- getRootSnippet (flask root) document; merge_snippet document S) = OK doc1 →
  requirements_txt_exists root = true
  ∧ ∃ P1, doc1 = <["parts" := VMap P1]> (root_defaults document ∪ document)
          ∧ all_mappings P1
          ∧ (∀ name, is_Some (parts_of document !! name) → is_Some (P1 !! name))
          ∧ merge_parts P1 (flask_parts root) = OK P1
          ∧ merge_parts P1 P1 = OK P1.
Proof.
  intros (S & (Hreq & Hpm & PS & HPS & ->)%flask_root_snippet_OK
          & (U & HU & ->)%merge_snippet_OK)%bind_OK.
  split; [done|].
  (* the parts after the merge *)
  assert (∃ P1, U !! "parts" = Some (VMap P1)
                ∧ all_mappings P1
                ∧ (∀ name, is_Some (parts_of document !! name) → is_Some (P1 !! name))
                ∧ apply_extension_property (VMap P1) (VMap (flask_parts root))
                  = OK (VMap P1)
                ∧ normal (VMap P1)) as (P1 & HP1 & Hall & Hdom & Habs & Hnorm).
  { pose proof (HU "parts") as Hparts. rewrite lookup_insert_eq in Hparts.
    simpl in Hparts. unfold merge_key, parts_is_mapping, parts_of in *.
    destruct (document !! "parts") as [[| |cp]|] eqn:Hdp;
      try (exfalso; exact Hpm).
    - (* the document has parts *)
      simpl in Hparts. destruct (U !! "parts") as [u|]; [|done].
      simpl in Hparts.
      assert (rmap VMap (merge_parts cp PS) = OK u) as Hu by congruence.
      apply rmap_OK in Hu as (P1 & HP1 & ->). exists P1.
      assert (∀ name, is_Some (cp !! name) → is_Some (PS !! name)) as Hsub.
      { intros name [p Hp]. rewrite merge_parts_OK in HPS. specialize (HPS name).
        rewrite Hp in HPS. destruct (PS !! name); [done|].
        by destruct (flask_parts root !! name). }
      split_and!; [done| | | |].
      + eapply merge_parts_all_mappings; [done|done|].
        intros k q Hk Hq. rewrite merge_parts_OK in HPS. specialize (HPS k).
        rewrite Hk, Hq in HPS.
        destruct (flask_parts root !! k) as [f|] eqn:Hf; [|done].
        simpl in HPS. apply all_mappings_flask_parts in Hf as [m ->].
        exists m. congruence.
      + intros name [p Hp]. rewrite merge_parts_OK in HP1. specialize (HP1 name).
        rewrite Hp in HP1. destruct (P1 !! name); [done|].
        by destruct (PS !! name).
      + eapply merge_absorb; [apply normal_flask_parts| |].
        * by apply merge_parts_property_merge.
        * by apply merge_parts_property_merge.
      + eapply merge_absorb; [apply normal_flask_parts| |].
        * by apply merge_parts_property_merge.
        * by apply merge_parts_property_merge.
    - (* the document has no parts *)
      rewrite merge_parts_empty_l in HPS. injection HPS as <-.
      simpl in Hparts. destruct (U !! "parts") as [u|]; [|done].
      simpl in Hparts. assert (u = VMap (flask_parts root)) as -> by congruence.
      exists (flask_parts root). split_and!; [done| | | |].
      + apply all_mappings_flask_parts.
      + intros name [? Hn]. by rewrite lookup_empty in Hn.
      + apply normal_flask_parts.
      + apply normal_flask_parts. }
  exists P1. split_and!; [|done|done| |].
  - rewrite insert_union_l. f_equal. apply map_eq. intros k.
    destruct (decide (k = "parts")) as [->|Hk]; [by rewrite lookup_insert_eq|].
    rewrite lookup_insert_ne by done. specialize (HU k).
    rewrite lookup_insert_ne in HU by done.
    destruct (root_defaults document !! k) as [v|] eqn:Hv; simpl in HU.
    + apply root_defaults_lookup in Hv as [Hv _].
      unfold merge_key in HU. rewrite Hv in HU.
      destruct (U !! k); simpl in HU; congruence.
    + by destruct (U !! k).
  - apply property_merge_merge_parts;
      [done|apply all_mappings_flask_parts|done].
  - by apply property_merge_merge_parts.
Qed.

(** A document that has absorbed the extension is a fixed point. *)
Lemma flask_fixed_point (root : ProjectRoot) (doc1 P1 : gmap string Value) :
  requirements_txt_exists root = true →
  doc1 !! "parts" = Some (VMap P1) →
  root_defaults doc1 = ∅ →
  merge_parts P1 (flask_parts root) = OK P1 →
  merge_parts P1 P1 = OK P1 →
  getRootSnippet (flask root) doc1 = OK {[ "parts" := VMap P1 ]}
  ∧ merge_snippet doc1 {[ "parts" := VMap P1 ]} = OK doc1.
Proof.
  intros Hreq Hparts Hdef Habs Hself. split.
  - apply flask_root_snippet_OK. split_and!; [done| |].
    + unfold parts_is_mapping. by rewrite Hparts.
    + exists P1. unfold parts_of. rewrite Hparts, Hdef. done.
  - by eapply merge_snippet_parts_absorbed.
Qed.

(** The parts hook and the per-part hook of the Flask extension add
    nothing: applying the extension is merging its root snippet. *)
Lemma apply_snippets_flask (root : ProjectRoot) (document : gmap string Value) :
  apply_snippets (flask root) document
  = do S <- getRootSnippet (flask root) document; merge_snippet document S.
Proof.
  destruct (do S <- getRootSnippet (flask root) document; merge_snippet document S)
    as [doc1|e] eqn:H.
  - pose proof H as Hfirst.
    apply flask_first_application in Hfirst
      as (_ & P1 & -> & Hall & Hdom & _ & _).
    apply bind_OK in H as (S & HS & Hm).
    unfold apply_snippets. rewrite HS. simpl. rewrite Hm. simpl.
    erewrite merge_snippet_parts_absorbed;
      [|apply lookup_insert_eq|apply merge_parts_empty_r]. simpl.
    eapply patch_parts_empty; [apply lookup_insert_eq|].
    intros name p _. apply Hall.
  - apply bind_Err in H as [H|(S & HS & Hm)].
    + unfold apply_snippets. by rewrite H.
    + unfold apply_snippets. rewrite HS. simpl. by rewrite Hm.
Qed.




(** ** The Flask extension applied to a document *)

(** C9: the per-part hook and the parts hook of the Flask extension
    return the empty mapping for every document, so that applying the
    extension is merging its root snippet into the document. *)
Theorem flask_part_hooks_empty (self : Flask.t) (name : string) :
  Flask.get_part_snippet self = ∅
  ∧ Flask.get_parts_snippet self = ∅
  ∧ getPartSnippet (flask (Flask.project_root self)) name (Flask.yaml_data self)
    = OK ∅
  ∧ getPartsSnippet (flask (Flask.project_root self)) (Flask.yaml_data self)
    = OK ∅
  ∧ apply_snippets (flask (Flask.project_root self)) (Flask.yaml_data self)
    = do S <- getRootSnippet (flask (Flask.project_root self)) (Flask.yaml_data self);
      merge_snippet (Flask.yaml_data self) S.
Proof. split_and!; try done. apply apply_snippets_flask. Qed.

(** C6: applying the Flask extension to a document that an application
    of it produced changes nothing: the root snippet then holds no root
    default, only the parts the document already has, and merging the
    parts of the extension into parts that hold them already gives the
    same parts, the lists deduplicated and not doubled. *)
Theorem flask_apply_twice (root : ProjectRoot) (document doc1 : gmap string Value) :
  apply_snippets (flask root) document = OK doc1 →
  apply_snippets (flask root) doc1 = OK doc1
  ∧ (∃ P1, doc1 !! "parts" = Some (VMap P1)
           ∧ getRootSnippet (flask root) doc1 = OK {[ "parts" := VMap P1 ]}
           ∧ merge_parts P1 (flask_parts root) = OK P1)
  ∧ merge_parts (flask_parts root) (flask_parts root) = OK (flask_parts root)
  ∧ Flask._merge_part apply_extension_property
      (VMap Flask.dependencies_part) (VMap Flask.dependencies_part)
    = OK Flask.dependencies_part
  ∧ apply_extension_property (VList [VStr "python3-venv"]) (VList [VStr "python3-venv"])
    = OK (VList [VStr "python3-venv"]).
Proof.
  rewrite apply_snippets_flask.
  intros (Hreq & P1 & -> & Hall & _ & Habs & Hself)%flask_first_application.
  destruct (flask_fixed_point root
              (<["parts" := VMap P1]> (root_defaults document ∪ document)) P1)
    as [Hroot Hmerge];
    [exact Hreq|apply lookup_insert_eq|apply root_defaults_fixed
    |exact Habs|exact Hself|].
  split_and!.
  - rewrite apply_snippets_flask, Hroot. simpl. apply Hmerge.
  - exists P1. split_and!; [apply lookup_insert_eq|exact Hroot|exact Habs].
  - apply merge_parts_flask_parts_self.
  - apply merge_part_property_merge, normal_dependencies_part.
  - vm_compute. reflexivity.
Qed.

Lemma flask_apply_sample_document_OK :
  is_OKb (apply_snippets (flask sample_root) sample_document) = true.
Proof. vm_compute. reflexivity. Qed.

Lemma flask_apply_twice_witness :
  match apply_snippets (flask sample_root) sample_document with
  | OK doc1 => apply_snippets (flask sample_root) doc1 = OK doc1
  | Err _ => False
  end.
Proof.
  pose proof flask_apply_sample_document_OK as HOK.
  destruct (apply_snippets (flask sample_root) sample_document) as [doc1|e] eqn:H.
  - exact (proj1 (flask_apply_twice sample_root sample_document doc1 H)).
  - discriminate HOK.
Defined.

(** On the sample document, whose dependencies part lists a package
    twice, the extension leaves one occurrence and adds its own. *)
Example flask_apply_sample_document_parts :
  match apply_snippets (flask sample_root) sample_document with
  | OK doc1 =>
      parts_of doc1 !! "flask/dependencies"
      = Some (VMap {[ "plugin" := VStr "python";
                      "stage-packages" := VList [VStr "curl"; VStr "python3-venv"];
                      "source" := VStr ".";
                      "python-packages" := VList [VStr "gunicorn"];
                      "python-requirements" := VList [VStr "requirements.txt"] ]})
      ∧ doc1 !! "run_user" = Some (VStr "root")
      ∧ doc1 !! "build-base" = None
  | Err _ => False
  end.
Proof. vm_compute. done. Qed.

(** * Further properties of the part merge *)

Section PartMergeAlgebra.

Variable apply_extension_property : Value → Value → Result Value.

Local Abbreviation merge_part := (Flask._merge_part apply_extension_property).

(** X8: two parts with no property name in common merge into their union,
    and the property merge is not consulted. *)
Theorem merge_part_disjoint (base incoming : gmap string Value) :
  dom base ## dom incoming →
  merge_part (VMap base) (VMap incoming) = OK (base ∪ incoming).
Proof.
  intros Hdisj.
  assert (∀ k, base !! k = None ∨ incoming !! k = None) as Hk.
  { intros k. destruct (base !! k) eqn:Hb, (incoming !! k) eqn:Hn; eauto.
    exfalso. apply (Hdisj k); apply elem_of_dom; eauto. }
  pose proof (merge_part_cases apply_extension_property base incoming) as Hs.
  destruct (merge_part _ _) as [r|e].
  - f_equal. apply map_eq. intros k. destruct Hs as [_ Hs]. specialize (Hs k).
    rewrite lookup_union.
    destruct (Hk k) as [Hn|Hn]; rewrite Hn in Hs |- *;
      destruct (base !! k), (incoming !! k); simplify_eq/=; by rewrite Hs.
  - destruct Hs as (k & b & n & Hb & Hn & _).
    destruct (Hk k); congruence.
Qed.

(** X9: the set of property names may be visited in any order: the loop
    succeeds for one order exactly when it does for the order of
    [_merge_part], and then with the same mapping. *)
Theorem merge_part_order_independent (base incoming : gmap string Value)
    (properties : list string) :
  properties ≡ₚ elements (dom base ∪ dom incoming) →
  match Flask._merge_part_loop apply_extension_property properties base incoming ∅,
        merge_part (VMap base) (VMap incoming) with
  | OK r, OK r' => r = r'
  | Err _, Err _ => True
  | _, _ => False
  end.
Proof.
  intros Hperm.
  destruct (Flask._merge_part_loop _ properties base incoming ∅) as [r|e] eqn:Hloop.
  - by rewrite (merge_part_any_order _ _ _ _ _ Hperm Hloop).
  - destruct (merge_part _ _) as [r'|e'] eqn:Hm; [|done].
    apply merge_part_loop_Err in Hloop
      as [(k & b & n & _ & Hb & Hn & He)|(k & Hin & Hb & Hn)].
    + assert (is_OK (merge_part (VMap base) (VMap incoming))) as HOK
        by (by eexists).
      rewrite merge_part_is_OK in HOK.
      destruct (HOK k b n Hb Hn) as [v Hv]. congruence.
    + rewrite Hperm, elem_of_elements, elem_of_union, !elem_of_dom, Hb, Hn in Hin.
      destruct Hin as [[? ?]|[? ?]]; done.
Qed.

(** X10: with a symmetric property merge the part merge is symmetric: both
    orders of the arguments fail, or both give the same mapping. *)
Theorem merge_part_symmetric (a b : gmap string Value) :
  (∀ x y, apply_extension_property x y = apply_extension_property y x) →
  match merge_part (VMap a) (VMap b), merge_part (VMap b) (VMap a) with
  | OK r, OK r' => r = r'
  | Err _, Err _ => True
  | _, _ => False
  end.
Proof.
  intros Hsym.
  pose proof (merge_part_cases apply_extension_property a b) as Hab.
  pose proof (merge_part_cases apply_extension_property b a) as Hba.
  destruct (merge_part (VMap a) (VMap b)) as [r|e],
    (merge_part (VMap b) (VMap a)) as [r'|e']; [| | |done].
  - apply map_eq. intros k. destruct Hab as [_ Hab], Hba as [_ Hba].
    specialize (Hab k). specialize (Hba k).
    destruct (a !! k) as [x|], (b !! k) as [y|]; try congruence.
    destruct Hab as (v & Hv & ->), Hba as (v' & Hv' & ->).
    rewrite Hsym in Hv. congruence.
  - destruct Hab as [_ Hab]. destruct Hba as (k & y & x & Hy & Hx & He).
    specialize (Hab k). rewrite Hx, Hy in Hab. destruct Hab as (v & Hv & _).
    rewrite Hsym in Hv. congruence.
  - destruct Hba as [_ Hba]. destruct Hab as (k & x & y & Hx & Hy & He).
    specialize (Hba k). rewrite Hx, Hy in Hba. destruct Hba as (v & Hv & _).
    rewrite Hsym in Hv. congruence.
Qed.

(** X11: a part whose values the property merge leaves alone merges with
    itself into itself. *)
Theorem merge_part_idempotent (p : gmap string Value) :
  (∀ k v, p !! k = Some v → apply_extension_property v v = OK v) →
  merge_part (VMap p) (VMap p) = OK p.
Proof.
  intros Hidem.
  pose proof (merge_part_cases apply_extension_property p p) as Hs.
  destruct (merge_part _ _) as [r|e].
  - f_equal. apply map_eq. intros k. destruct Hs as [_ Hs]. specialize (Hs k).
    destruct (p !! k) as [v|] eqn:Hv; [|done].
    destruct Hs as (v' & Hv' & ->). rewrite (Hidem k v Hv) in Hv'. congruence.
  - destruct Hs as (k & b & n & Hb & Hn & He).
    assert (b = n) as -> by congruence. rewrite (Hidem k n Hn) in He. done.
Qed.

(** X7: [_merge_existing_part] by the shape of the document: a document
    without parts, or without the named part, gives the part definition
    as it is; a named part that is a dict is merged; a parts entry or a
    named part that is no dict raises AttributeError. *)
Theorem merge_existing_part_cases (self : Flask.t) (part_name : string)
    (part_def : gmap string Value) :
  Flask._merge_existing_part apply_extension_property self part_name (VMap part_def)
  = match Flask.yaml_data self !! "parts" with
    | None => OK part_def
    | Some (VMap parts) =>
        match parts !! part_name with
        | None => OK part_def
        | Some (VMap existing) => merge_part (VMap existing) (VMap part_def)
        | Some _ => Err AttributeError
        end
    | Some _ => Err AttributeError
    end.
Proof.
  unfold Flask._merge_existing_part.
  destruct (Flask.yaml_data self !! "parts") as [[| |parts]|]; simpl; try done.
  - destruct (parts !! part_name) as [[| |existing]|]; simpl; try done.
    apply merge_part_empty_l.
  - rewrite lookup_empty. apply merge_part_empty_l.
Qed.

End PartMergeAlgebra.

Lemma merge_part_disjoint_witness :
  Flask._merge_part merge_never
    (VMap {[ "plugin" := VStr "python" ]}) (VMap {[ "source" := VStr "." ]})
  = OK ({[ "plugin" := VStr "python" ]} ∪ {[ "source" := VStr "." ]}).
Proof.
  apply (merge_part_disjoint merge_never
           {[ "plugin" := VStr "python" ]} {[ "source" := VStr "." ]}).
  rewrite !dom_singleton_L. set_solver.
Defined.

Lemma merge_part_order_independent_witness :
  match Flask._merge_part_loop merge_equal
          (reverse (elements (dom sample_base_part ∪ dom sample_new_part)))
          sample_base_part sample_new_part ∅,
        Flask._merge_part merge_equal (VMap sample_base_part) (VMap sample_new_part) with
  | OK r, OK r' => r = r'
  | Err _, Err _ => True
  | _, _ => False
  end.
Proof.
  apply (merge_part_order_independent merge_equal sample_base_part sample_new_part).
  apply reverse_Permutation.
Defined.

Lemma merge_equal_symmetric (x y : Value) : merge_equal x y = merge_equal y x.
Proof.
  unfold merge_equal.
  destruct (decide (x = y)) as [->|Hne]; [by rewrite decide_True|].
  by rewrite decide_False by congruence.
Qed.

Lemma merge_part_symmetric_witness :
  match Flask._merge_part merge_equal (VMap sample_base_part) (VMap sample_new_part),
        Flask._merge_part merge_equal (VMap sample_new_part) (VMap sample_base_part) with
  | OK r, OK r' => r = r'
  | Err _, Err _ => True
  | _, _ => False
  end.
Proof.
  apply (merge_part_symmetric merge_equal sample_base_part sample_new_part).
  apply merge_equal_symmetric.
Defined.

Lemma merge_part_idempotent_witness :
  Flask._merge_part merge_equal (VMap sample_base_part) (VMap sample_base_part)
  = OK sample_base_part.
Proof.
  apply (merge_part_idempotent merge_equal sample_base_part).
  intros k v _. unfold merge_equal. by rewrite decide_True.
Defined.

(** * Further properties of the root snippet *)

Section RootSnippetShape.

Variable apply_extension_property : Value → Value → Result Value.

Local Abbreviation merge_part := (Flask._merge_part apply_extension_property).
Local Abbreviation get_root_snippet := (Flask.get_root_snippet apply_extension_property).
Local Abbreviation gen_new_parts := (Flask._gen_new_parts apply_extension_property).

(** The existing part of a name, [{}] when the document has none. *)
Local Abbreviation existing_part self name :=
  (default (VMap ∅) (parts_of (Flask.yaml_data self) !! name)).

Lemma gen_new_parts_OK (self : Flask.t) (np : gmap string Value) :
  parts_is_mapping (Flask.yaml_data self) →
  gen_new_parts self = OK np
  ↔ requirements_txt_exists (Flask.project_root self) = true
    ∧ ∃ d i,
        merge_part (existing_part self Flask.dependencies_part_name)
          (VMap Flask.dependencies_part) = OK d
        ∧ merge_part (existing_part self Flask.install_app_part_name)
            (VMap (Flask.install_app_part (Flask.project_root self))) = OK i
        ∧ np = {[ Flask.dependencies_part_name := VMap d;
                  Flask.install_app_part_name := VMap i ]}.
Proof.
  intros Hpm. unfold Flask._gen_new_parts.
  rewrite !merge_existing_part_unfold by done.
  destruct (requirements_txt_exists (Flask.project_root self)); simpl.
  - split.
    + intros (d & Hd & (i & Hi & [= <-])%bind_OK)%bind_OK. eauto 10.
    + intros (_ & d & i & -> & -> & ->). done.
  - split; [done|]. by intros [? _].
Qed.

Lemma root_snippet_OK (self : Flask.t) (snippet : gmap string Value) :
  get_root_snippet self = OK snippet
  ↔ parts_is_mapping (Flask.yaml_data self)
    ∧ ∃ np, gen_new_parts self = OK np
            ∧ snippet = <["parts" := VMap (np ∪ parts_of (Flask.yaml_data self))]>
                          (root_defaults (Flask.yaml_data self)).
Proof.
  rewrite get_root_snippet_unfold. split.
  - intros (cp & [Hpm ->]%keys_of_parts_is_mapping
            & (np & Hnp & [= <-])%bind_OK)%bind_OK. eauto.
  - intros (Hpm & np & Hnp & ->).
    rewrite parts_is_mapping_keys_of by done. simpl. by rewrite Hnp.
Qed.

(** A part merge that succeeds had a dict as its base. *)
Lemma merge_part_OK_inv (base : Value) (incoming r : gmap string Value) :
  merge_part base (VMap incoming) = OK r →
  ∃ e, base = VMap e
       ∧ dom r = dom e ∪ dom incoming
       ∧ ∀ k, match e !! k, incoming !! k with
              | Some b, None => r !! k = Some b
              | None, Some n => r !! k = Some n
              | Some b, Some n =>
                  ∃ v, apply_extension_property b n = OK v ∧ r !! k = Some v
              | None, None => r !! k = None
              end.
Proof.
  intros H. destruct base as [| |e]; try done. exists e. split; [done|].
  pose proof (merge_part_cases apply_extension_property e incoming) as Hs.
  by rewrite H in Hs.
Qed.

Lemma root_defaults_dom (document : gmap string Value) :
  dom (root_defaults document) ⊆ {[ "run_user"; "build-base"; "platforms" ]}.
Proof.
  unfold root_defaults.
  repeat case_match; rewrite ?dom_insert_L, ?dom_empty_L; set_solver.
Qed.

(** X1: the build-base default: the root snippet sets build-base, to
    "ubuntu:22.04", exactly when the document has no build-base and its
    base is "bare" or absent. *)
Theorem root_snippet_build_base (self : Flask.t) (snippet : gmap string Value) :
  get_root_snippet self = OK snippet →
  snippet !! "build-base"
  = match Flask.yaml_data self !! "build-base", Flask.yaml_data self !! "base" with
    | Some _, _ => None
    | None, None => Some (VStr "ubuntu:22.04")
    | None, Some base =>
        if decide (base = VStr "bare") then Some (VStr "ubuntu:22.04") else None
    end.
Proof.
  intros (_ & np & _ & ->)%root_snippet_OK.
  rewrite lookup_insert_ne by done. unfold root_defaults.
  rewrite !bool_decide_not_in_dom.
  destruct (Flask.yaml_data self !! "build-base"),
    (Flask.yaml_data self !! "base") as [base|],
    (Flask.yaml_data self !! "run_user"),
    (Flask.yaml_data self !! "platforms"); simpl;
    try (case_bool_decide; [rewrite decide_True by done|rewrite decide_False by done]);
    simpl; by simplify_map_eq.
Qed.

(** X2: the keys of the root snippet: always "parts", and beside it only
    "run_user", "build-base" and "platforms". *)
Theorem root_snippet_keys (self : Flask.t) (snippet : gmap string Value) :
  get_root_snippet self = OK snippet →
  "parts" ∈ dom snippet
  ∧ dom snippet ⊆ {[ "run_user"; "build-base"; "platforms"; "parts" ]}.
Proof.
  intros (_ & np & _ & ->)%root_snippet_OK. rewrite dom_insert_L.
  pose proof (root_defaults_dom (Flask.yaml_data self)). set_solver.
Qed.

(** X3: the parts of the root snippet: every part of the document under its
    name, the parts other than the two of the extension as they are,
    and the two parts of the extension, each a dict that has at least
    the properties the extension defines. *)
Theorem root_snippet_parts (self : Flask.t) (snippet : gmap string Value) :
  get_root_snippet self = OK snippet →
  ∃ parts,
    snippet !! "parts" = Some (VMap parts)
    ∧ dom parts = dom (parts_of (Flask.yaml_data self))
                  ∪ {[ "flask/dependencies"; "flask/install-app" ]}
    ∧ (∀ name, name ≠ "flask/dependencies" → name ≠ "flask/install-app" →
               parts !! name = parts_of (Flask.yaml_data self) !! name)
    ∧ ∃ d i, parts !! "flask/dependencies" = Some (VMap d)
             ∧ parts !! "flask/install-app" = Some (VMap i)
             ∧ dom Flask.dependencies_part ⊆ dom d
             ∧ dom (Flask.install_app_part (Flask.project_root self)) ⊆ dom i.
Proof.
  intros (Hpm & np & Hnp & ->)%root_snippet_OK.
  apply gen_new_parts_OK in Hnp as (_ & d & i & Hd & Hi & ->); [|done].
  unfold Flask.dependencies_part_name, Flask.install_app_part_name in *.
  eexists. split; [apply lookup_insert_eq|]. split_and!.
  - rewrite dom_union_L, dom_insert_L, dom_singleton_L. set_solver.
  - intros name H1 H2. rewrite lookup_union_r; [done|].
    by rewrite lookup_insert_ne, lookup_singleton_ne.
  - exists d, i.
    apply merge_part_OK_inv in Hd as (e1 & _ & Hd & _).
    apply merge_part_OK_inv in Hi as (e2 & _ & Hi & _).
    split_and!.
    + apply lookup_union_Some_l, lookup_insert_eq.
    + apply lookup_union_Some_l. by rewrite lookup_insert_ne, lookup_singleton_eq.
    + set_solver.
    + set_solver.
Qed.

(** X4: a parts entry that is no dict makes the root snippet fail with
    AttributeError, before the requirements file is looked for. *)
Theorem root_snippet_parts_no_dict (document : gmap string Value)
    (root : ProjectRoot) (parts : Value) :
  match parts with
  | VMap _ => True
  | _ => get_root_snippet (Flask.mk (<["parts" := parts]> document) root)
         = Err AttributeError
  end.
Proof.
  destruct parts; [| |done];
    rewrite get_root_snippet_unfold; simpl; by rewrite lookup_insert_eq.
Qed.

(** X5: the root snippet is computed exactly when the requirements file
    exists, the parts entry is absent or a dict, and the two parts of
    the extension merge with the existing parts of their names. *)
Theorem root_snippet_succeeds_iff (self : Flask.t) :
  is_OK (get_root_snippet self)
  ↔ requirements_txt_exists (Flask.project_root self) = true
    ∧ parts_is_mapping (Flask.yaml_data self)
    ∧ is_OK (merge_part (existing_part self "flask/dependencies")
               (VMap Flask.dependencies_part))
    ∧ is_OK (merge_part (existing_part self "flask/install-app")
               (VMap (Flask.install_app_part (Flask.project_root self)))).
Proof.
  split.
  - intros [snippet (Hpm & np & Hnp & _)%root_snippet_OK].
    apply gen_new_parts_OK in Hnp as (Hreq & d & i & Hd & Hi & _); [|done].
    split_and!; [done|done|by exists d|by exists i].
  - intros (Hreq & Hpm & [d Hd] & [i Hi]).
    eexists. apply root_snippet_OK. split; [done|].
    eexists. split; [|done]. apply gen_new_parts_OK; [done|]. eauto 10.
Qed.

(** X6: for a document without the two parts of the extension the root
    snippet is computed whatever the property merge is, and its parts
    are the parts of the document and the two parts as the extension
    defines them. *)
Theorem root_snippet_no_flask_parts (self : Flask.t) :
  requirements_txt_exists (Flask.project_root self) = true →
  parts_is_mapping (Flask.yaml_data self) →
  parts_of (Flask.yaml_data self) !! "flask/dependencies" = None →
  parts_of (Flask.yaml_data self) !! "flask/install-app" = None →
  ∃ snippet,
    get_root_snippet self = OK snippet
    ∧ snippet !! "parts"
      = Some (VMap (<["flask/dependencies" := VMap Flask.dependencies_part]>
                      (<["flask/install-app" :=
                           VMap (Flask.install_app_part (Flask.project_root self))]>
                         (parts_of (Flask.yaml_data self))))).
Proof.
  intros Hreq Hpm Hd Hi. eexists. split.
  - apply root_snippet_OK. split; [done|]. eexists. split; [|done].
    apply gen_new_parts_OK; [done|]. split; [done|].
    exists Flask.dependencies_part,
      (Flask.install_app_part (Flask.project_root self)).
    unfold Flask.dependencies_part_name, Flask.install_app_part_name.
    rewrite Hd, Hi. simpl. rewrite !merge_part_empty_l. done.
  - rewrite lookup_insert_eq. do 2 f_equal.
    unfold Flask.dependencies_part_name, Flask.install_app_part_name.
    by rewrite <-insert_union_l, <-insert_union_singleton_l.
Qed.

(** X15: the dependencies part of the root snippet, when the document has a
    part of that name: a property only the document has keeps its
    value, a property only the extension has is added, and a property
    of both holds their property merge. *)
Theorem root_snippet_dependencies_part (self : Flask.t)
    (snippet existing : gmap string Value) :
  get_root_snippet self = OK snippet →
  parts_of (Flask.yaml_data self) !! "flask/dependencies" = Some (VMap existing) →
  ∃ parts d,
    snippet !! "parts" = Some (VMap parts)
    ∧ parts !! "flask/dependencies" = Some (VMap d)
    ∧ ∀ k, match existing !! k, Flask.dependencies_part !! k with
           | Some b, None => d !! k = Some b
           | None, Some n => d !! k = Some n
           | Some b, Some n =>
               ∃ v, apply_extension_property b n = OK v ∧ d !! k = Some v
           | None, None => d !! k = None
           end.
Proof.
  intros (Hpm & np & Hnp & ->)%root_snippet_OK He.
  apply gen_new_parts_OK in Hnp as (_ & d & i & Hd & _ & ->); [|done].
  unfold Flask.dependencies_part_name in *. rewrite He in Hd. simpl in Hd.
  apply merge_part_OK_inv in Hd as (e & [= <-] & _ & Hd).
  eexists _, d. split_and!; [apply lookup_insert_eq| |done].
  apply lookup_union_Some_l, lookup_insert_eq.
Qed.

(** X17: the root snippet reads five keys of the document and no other:
    setting any other key leaves it as it was. *)
Theorem root_snippet_other_key (document : gmap string Value) (root : ProjectRoot)
    (k : string) (v : Value) :
  k ∉ ["run_user"; "build-base"; "base"; "platforms"; "parts"] →
  get_root_snippet (Flask.mk (<[k := v]> document) root)
  = get_root_snippet (Flask.mk document root).
Proof.
  rewrite !not_elem_of_cons. intros (H1 & H2 & H3 & H4 & H5 & _).
  rewrite !get_root_snippet_unfold. simpl.
  assert (root_defaults (<[k := v]> document) = root_defaults document) as ->.
  { unfold root_defaults. rewrite !bool_decide_not_in_dom.
    by rewrite !lookup_insert_ne by done. }
  unfold Flask._gen_new_parts, Flask._merge_existing_part. simpl.
  by rewrite !lookup_insert_ne by done.
Qed.

End RootSnippetShape.

Lemma root_snippet_bare_document_OK :
  is_OKb (Flask.get_root_snippet merge_never (Flask.mk bare_document sample_root))
  = true.
Proof. vm_compute. reflexivity. Qed.

Lemma root_snippet_sample_document_OK :
  is_OKb (Flask.get_root_snippet apply_extension_property
            (Flask.mk sample_document sample_root)) = true.
Proof. vm_compute. reflexivity. Qed.

Lemma root_snippet_build_base_witness :
  match Flask.get_root_snippet merge_never (Flask.mk bare_document sample_root) with
  | OK snippet => snippet !! "build-base" = Some (VStr "ubuntu:22.04")
  | Err _ => False
  end.
Proof.
  pose proof root_snippet_bare_document_OK as HOK.
  destruct (Flask.get_root_snippet merge_never (Flask.mk bare_document sample_root))
    as [snippet|e] eqn:H; [|discriminate HOK].
  exact (root_snippet_build_base merge_never _ _ H).
Defined.

Lemma root_snippet_keys_witness :
  match Flask.get_root_snippet merge_never (Flask.mk bare_document sample_root) with
  | OK snippet => "parts" ∈ dom snippet
  | Err _ => False
  end.
Proof.
  pose proof root_snippet_bare_document_OK as HOK.
  destruct (Flask.get_root_snippet merge_never (Flask.mk bare_document sample_root))
    as [snippet|e] eqn:H; [|discriminate HOK].
  exact (proj1 (root_snippet_keys merge_never _ _ H)).
Defined.

Lemma root_snippet_parts_witness :
  match Flask.get_root_snippet apply_extension_property
          (Flask.mk sample_document sample_root) with
  | OK snippet =>
      ∃ parts, snippet !! "parts" = Some (VMap parts)
               ∧ parts !! "docs" = Some (VMap {[ "plugin" := VStr "nil" ]})
  | Err _ => False
  end.
Proof.
  pose proof root_snippet_sample_document_OK as HOK.
  destruct (Flask.get_root_snippet apply_extension_property
              (Flask.mk sample_document sample_root))
    as [snippet|e] eqn:H; [|discriminate HOK].
  destruct (root_snippet_parts apply_extension_property _ _ H)
    as (parts & Hparts & _ & Hother & _).
  exists parts. split; [done|]. by rewrite Hother.
Defined.

Lemma root_snippet_no_flask_parts_witness :
  ∃ snippet,
    Flask.get_root_snippet merge_never (Flask.mk bare_document sample_root)
    = OK snippet
    ∧ snippet !! "parts"
      = Some (VMap (<["flask/dependencies" := VMap Flask.dependencies_part]>
                      (<["flask/install-app" :=
                           VMap (Flask.install_app_part sample_root)]> ∅))).
Proof.
  apply (root_snippet_no_flask_parts merge_never (Flask.mk bare_document sample_root));
    vm_compute; done.
Defined.

Lemma root_snippet_dependencies_part_witness :
  match Flask.get_root_snippet apply_extension_property
          (Flask.mk sample_document sample_root) with
  | OK snippet =>
      ∃ parts d, snippet !! "parts" = Some (VMap parts)
                 ∧ parts !! "flask/dependencies" = Some (VMap d)
                 ∧ d !! "plugin" = Some (VStr "python")
  | Err _ => False
  end.
Proof.
  pose proof root_snippet_sample_document_OK as HOK.
  destruct (Flask.get_root_snippet apply_extension_property
              (Flask.mk sample_document sample_root))
    as [snippet|e] eqn:H; [|discriminate HOK].
  destruct (root_snippet_dependencies_part apply_extension_property _ _
              {[ "stage-packages" := VList [VStr "curl"; VStr "curl"] ]} H eq_refl)
    as (parts & d & Hparts & Hd & Hk).
  exists parts, d. split_and!; [done|done|]. exact (Hk "plugin").
Defined.

Lemma root_snippet_other_key_witness :
  Flask.get_root_snippet merge_never
    (Flask.mk (<["summary" := VStr "a web application"]> bare_document) sample_root)
  = Flask.get_root_snippet merge_never (Flask.mk bare_document sample_root).
Proof.
  apply (root_snippet_other_key merge_never bare_document sample_root).
  rewrite !not_elem_of_cons. split_and!; try done. apply not_elem_of_nil.
Defined.

(** * The install-app part *)

Lemma foldl_odict_set_elem_of {A : Type} (g : string → A) (files ks : list string) :
  NoDup ks →
  ∃ ks', foldl (λ d f, odict_set f (g f) d) ((λ k, (k, g k)) <$> ks) files
         = (λ k, (k, g k)) <$> ks'
         ∧ NoDup ks'
         ∧ ∀ f, f ∈ ks' ↔ f ∈ ks ∨ f ∈ files.
Proof.
  revert ks. induction files as [|f files IH]; intros ks Hks; simpl.
  - exists ks. split_and!; [done|done|]. intros f. rewrite elem_of_nil. tauto.
  - rewrite odict_set_keys.
    destruct (decide (f ∈ ks)) as [Hin|Hnin].
    + destruct (IH ks Hks) as (ks' & -> & Hnd & Hel).
      exists ks'. split_and!; [done|done|].
      intros x. rewrite Hel, elem_of_cons. naive_solver.
    + destruct (IH (ks ++ [f])) as (ks' & -> & Hnd & Hel).
      { apply NoDup_app. split_and!; [done| |apply NoDup_singleton].
        intros x Hx ->%list_elem_of_singleton. done. }
      exists ks'. split_and!; [done|done|].
      intros x. rewrite Hel. set_solver.
Qed.

(** A directory listing without repetition is renamed file by file, in
    its order. *)
Lemma foldl_odict_set_NoDup {A : Type} (g : string → A) (files ks : list string) :
  NoDup (ks ++ files) →
  foldl (λ d f, odict_set f (g f) d) ((λ k, (k, g k)) <$> ks) files
  = (λ k, (k, g k)) <$> (ks ++ files).
Proof.
  revert ks. induction files as [|f files IH]; intros ks Hnd; simpl.
  - by rewrite app_nil_r.
  - rewrite odict_set_keys.
    apply NoDup_app in Hnd as Hnd'. destruct Hnd' as (_ & Hdisj & _).
    rewrite decide_False by (intros Hin; apply (Hdisj f Hin); left).
    rewrite IH by (by rewrite <-app_assoc). by rewrite <-app_assoc.
Qed.

Lemma elem_of_source_files (root : ProjectRoot) (f : string) :
  f ∈ Flask.source_files root
  ↔ f ∈ os_listdir root ∧ (f ∉ Flask.ignores) ∧ endswith f ".rock" = false.
Proof. unfold Flask.source_files. rewrite list_elem_of_filter. tauto. Qed.

Lemma renaming_map_elem_of (root : ProjectRoot) :
  ∃ ks, Flask.renaming_map root = (λ k, (k, os_path_join "srv/flask/app" k)) <$> ks
        ∧ NoDup ks
        ∧ ∀ f, f ∈ ks ↔ f ∈ Flask.source_files root.
Proof.
  unfold Flask.renaming_map.
  destruct (foldl_odict_set_elem_of (os_path_join "srv/flask/app")
              (Flask.source_files root) []) as (ks & Hks & Hnd & Hel);
    [constructor|].
  exists ks. split_and!; [done|done|].
  intros f. rewrite Hel, elem_of_nil. tauto.
Qed.

Lemma organize_lookup (ks : list string) (f : string) :
  NoDup ks →
  (list_to_map (prod_map id VStr
                  <$> ((λ k, (k, os_path_join "srv/flask/app" k)) <$> ks))
     : gmap string Value) !! f
  = if decide (f ∈ ks) then Some (VStr (os_path_join "srv/flask/app" f)) else None.
Proof.
  intros Hnd. rewrite <-list_fmap_compose.
  assert (((prod_map id VStr ∘ (λ k, (k, os_path_join "srv/flask/app" k))) <$> ks).*1
          = ks) as Hfst.
  { rewrite <-list_fmap_compose. apply list_fmap_id. }
  case_decide as Hin.
  - apply elem_of_list_to_map_1; [by rewrite Hfst|].
    apply list_elem_of_fmap. by exists f.
  - apply not_elem_of_list_to_map_1. by rewrite Hfst.
Qed.

(** X12: the organize mapping of the install-app part: a file of the project
    directory is renamed exactly when it is none of [.git],
    [node_modules], [.yarn] and does not end in [.rock], and then to
    its path under [srv/flask/app]. *)
Theorem install_app_organize (root : ProjectRoot) :
  ∃ organize,
    Flask.install_app_part root !! "organize" = Some (VMap organize)
    ∧ (∀ f, organize !! f
            = if decide (f ∈ os_listdir root ∧ (f ∉ Flask.ignores)
                         ∧ endswith f ".rock" = false)
              then Some (VStr (os_path_join "srv/flask/app" f))
              else None)
    ∧ (∀ f v, organize !! f = Some v → startswith f "/" = false →
              v = VStr ("srv/flask/app/" +:+ f))
    ∧ organize !! ".git" = None
    ∧ organize !! "node_modules" = None
    ∧ organize !! ".yarn" = None.
Proof.
  destruct (renaming_map_elem_of root) as (ks & Hks & Hnd & Hel).
  assert (∀ f, (list_to_map (prod_map id VStr <$> Flask.renaming_map root)
                  : gmap string Value) !! f
            = if decide (f ∈ os_listdir root ∧ (f ∉ Flask.ignores)
                         ∧ endswith f ".rock" = false)
              then Some (VStr (os_path_join "srv/flask/app" f))
              else None) as Hlookup.
  { intros f. rewrite Hks, organize_lookup by done.
    destruct (decide (f ∈ ks)) as [Hin|Hnin].
    - rewrite decide_True; [done|]. by apply elem_of_source_files, Hel.
    - rewrite decide_False; [done|]. by rewrite <-elem_of_source_files, <-Hel. }
  eexists. split; [reflexivity|]. split_and!.
  - exact Hlookup.
  - intros f v Hv Hf. rewrite Hlookup in Hv. case_decide; [|done].
    injection Hv as <-. by rewrite os_path_join_app, Hf.
  - rewrite Hlookup. apply decide_False. intros (_ & Hig & _). apply Hig.
    unfold Flask.ignores. set_solver.
  - rewrite Hlookup. apply decide_False. intros (_ & Hig & _). apply Hig.
    unfold Flask.ignores. set_solver.
  - rewrite Hlookup. apply decide_False. intros (_ & Hig & _). apply Hig.
    unfold Flask.ignores. set_solver.
Qed.

(** X13: the stage list of the install-app part holds the values of its
    organize mapping, each exactly once. *)
Theorem install_app_stage (root : ProjectRoot) :
  ∃ organize stage,
    Flask.install_app_part root !! "organize" = Some (VMap organize)
    ∧ Flask.install_app_part root !! "stage" = Some (VList stage)
    ∧ NoDup stage
    ∧ (∀ v, v ∈ stage ↔ ∃ f, organize !! f = Some v)
    ∧ length stage = size organize.
Proof.
  destruct (renaming_map_elem_of root) as (ks & Hks & Hnd & Hel).
  eexists _, _. split; [reflexivity|]. split; [reflexivity|].
  rewrite Hks. unfold odict_values. rewrite <-!list_fmap_compose.
  split_and!.
  - apply NoDup_fmap_2; [|done]. intros f g [= Hfg].
    by apply os_path_join_app_inj in Hfg.
  - intros v. rewrite list_elem_of_fmap. split.
    + intros (f & -> & Hf). exists f.
      rewrite list_fmap_compose, organize_lookup by done. by rewrite decide_True.
    + intros (f & Hf). exists f.
      rewrite list_fmap_compose, organize_lookup in Hf by done.
      case_decide; [|done]. by injection Hf as <-.
  - rewrite length_fmap, map_size_list_to_map.
    + by rewrite length_fmap.
    + rewrite <-list_fmap_compose. by rewrite list_fmap_id.
Qed.

(** X14: when the directory listing has no repetition, the stage list is the
    renamed files in the order of the listing. *)
Theorem install_app_stage_order (root : ProjectRoot) :
  NoDup (os_listdir root) →
  Flask.install_app_part root !! "stage"
  = Some (VList ((λ f, VStr (os_path_join "srv/flask/app" f))
                   <$> Flask.source_files root)).
Proof.
  intros Hnd. unfold Flask.install_app_part, Flask.renaming_map.
  pose proof (foldl_odict_set_NoDup (os_path_join "srv/flask/app")
                (Flask.source_files root) []) as Hfold.
  simpl in Hfold. rewrite Hfold by (by apply NoDup_filter).
  unfold odict_values. rewrite <-!list_fmap_compose.
  by rewrite lookup_insert_ne, lookup_insert_ne, lookup_insert_ne,
    lookup_singleton_eq by done.
Qed.

Lemma install_app_stage_order_witness :
  Flask.install_app_part sample_root !! "stage"
  = Some (VList [VStr "srv/flask/app/app.py"; VStr "srv/flask/app/requirements.txt"]).
Proof.
  apply (install_app_stage_order sample_root).
  vm_compute. repeat constructor; set_solver.
Defined.

(** * The part merge shares the values of its arguments *)

(** What a successful run of the loop has stored, for values of any
    type. *)
Lemma merge_part_loop_lookup {V : Type} (pm : V → V → Result V)
    (properties : list string) (base new result r : gmap string V) :
  Flask._merge_part_loop pm properties base new result = OK r →
  ∀ k, if decide (k ∈ properties)
       then match base !! k, new !! k with
            | Some b, None => r !! k = Some b
            | None, Some n => r !! k = Some n
            | Some b, Some n => ∃ v, pm b n = OK v ∧ r !! k = Some v
            | None, None => False
            end
       else r !! k = result !! k.
Proof.
  revert result. induction properties as [|p ps IH]; intros result H k.
  - simpl in H. injection H as <-. by rewrite decide_False by apply not_elem_of_nil.
  - simpl in H.
    assert (∃ v, match base !! p, new !! p with
                 | Some b, None => v = b
                 | None, Some n => v = n
                 | Some b, Some n => pm b n = OK v
                 | None, None => False
                 end
                 ∧ Flask._merge_part_loop pm ps base new (<[p:=v]> result) = OK r)
      as (v & Hv & Hrest).
    { destruct (base !! p) as [b|], (new !! p) as [n|]; [|eauto|eauto|done].
      apply bind_OK in H as (v & Hv & H). eauto. }
    specialize (IH _ Hrest k).
    destruct (decide (k ∈ ps)) as [Hin|Hnin].
    + by rewrite decide_True by (by right).
    + destruct (decide (k = p)) as [->|Hne].
      * rewrite decide_True by left. rewrite IH, lookup_insert_eq.
        destruct (base !! p), (new !! p); naive_solver.
      * rewrite decide_False by (rewrite elem_of_cons; tauto).
        by rewrite IH, lookup_insert_ne.
Qed.

Section HeapShares.

Import Heap.

(** X16: the part merge over the store copies no value: with a property
    merge that does not use the store, the store after the call is the
    store before it with one more object, the result dict, and a
    property that only one part has holds in the result the very value,
    scalar or reference, that the part holds. *)
Theorem heap_merge_part_shares (f : val → val → Result val)
    (lb ln : loc) (db dn : gmap string val) (σ : store) (r : val) :
  σ !! lb = Some (Dict db) → σ !! ln = Some (Dict dn) →
  (Heap._merge_part (λ a b σ', (f a b, σ')) (Ref lb) (Ref ln) σ).1 = OK r →
  ∃ d, Heap._merge_part (λ a b σ', (f a b, σ')) (Ref lb) (Ref ln) σ
       = (OK (Ref (fresh (dom σ))), <[fresh (dom σ) := Dict d]> σ)
       ∧ (∀ k x, db !! k = Some x → dn !! k = None → d !! k = Some x)
       ∧ (∀ k x, db !! k = None → dn !! k = Some x → d !! k = Some x).
Proof.
  intros Hb Hn Hr.
  pose proof (heap_merge_part_pure f lb ln db dn σ Hb Hn) as Hpure.
  destruct (Flask._merge_part_loop f (elements (dom db ∪ dom dn)) db dn ∅)
    as [d|e] eqn:Hloop; [|congruence].
  exists d. split; [done|].
  pose proof (merge_part_loop_lookup _ _ _ _ _ _ Hloop) as Hd.
  split; intros k x Hkb Hkn; specialize (Hd k);
    (rewrite decide_True in Hd
       by (rewrite elem_of_elements, elem_of_union, !elem_of_dom, Hkb, Hkn; eauto));
    by rewrite Hkb, Hkn in Hd.
Qed.

Lemma heap_merge_part_shares_witness :
  ∃ d, Heap._merge_part (λ a b σ', (OK a, σ')) (Ref 1%positive) (Ref 2%positive)
         sample_store_disjoint
       = (OK (Ref 5%positive), <[5%positive := Dict d]> sample_store_disjoint)
       ∧ d !! "stage-packages" = Some (Ref 3%positive)
       ∧ d !! "python-packages" = Some (Ref 4%positive).
Proof.
  destruct (heap_merge_part_shares (λ a b, OK a) 1%positive 2%positive
              {[ "plugin" := Imm (SStr "python");
                 "stage-packages" := Ref 3%positive ]}
              {[ "source" := Imm (SStr ".");
                 "python-packages" := Ref 4%positive ]}
              sample_store_disjoint (Ref 5%positive))
    as (d & Hrun & Hbase & Hnew); [reflexivity|reflexivity|vm_compute; reflexivity|].
  exists d. split_and!.
  - exact Hrun.
  - by apply Hbase.
  - by apply Hnew.
Defined.

End HeapShares.

(** * The store: new objects, copies and the root snippet *)

(** ** New objects and copies *)

Section HeapAlloc.

Import Heap.

Lemma keeps_new_obj (L : gset loc) (o : obj) :
  keeps L (new_obj o) (λ v, ∃ l, v = Ref l ∧ l ∉ L).
Proof.
  intros σ HL. unfold new_obj. simpl.
  assert (fresh (dom σ) ∉ L) as Hfresh.
  { intros Hin. by apply (is_fresh (dom σ)), HL. }
  split.
  - intros l Hl. rewrite lookup_insert_ne; [done|]. by intros <-.
  - intros a [= <-]. eauto.
Qed.

Lemma keeps_dict_get (L : gset loc) (v : val) name d :
  keeps L (dict_get v name d) (λ _, True).
Proof.
  eapply keeps_bind; [apply keeps_get_dict|]. intros m _. by apply keeps_ret.
Qed.


Lemma keeps_setitem_new (L : gset loc) (v : val) name x :
  new_for L v → keeps L (setitem v name x) (λ _, True).
Proof.
  destruct v as [s|l]; simpl; [|apply keeps_setitem].
  intros _. eapply keeps_bind; [apply keeps_get_dict|]. by intros d _ σ _.
Qed.




End HeapAlloc.

Section HeapValues.

Import Heap.

Lemma collect_list_OK (l : list (Result Value)) (a : list Value) :
  collect_list l = OK a ↔ l = OK <$> a.
Proof.
  revert a. induction l as [|r l IH]; intros a; simpl.
  - split; [by intros [= <-]|]. by destruct a.
  - rewrite bind_OK. split.
    + intros (v & -> & (vs & Hvs & [= <-])%bind_OK). apply IH in Hvs as ->. done.
    + destruct a as [|v a]; [done|]. intros [= -> ->].
      exists v. split; [done|]. apply bind_OK. exists a. split; [|done].
      by apply IH.
Qed.

(** The value read from a heap value depends only on the objects the
    store holds: it is the same in a store that holds them unchanged. *)
Lemma reify_ext (depth : nat) (σ σ' : store) (v : val) (x : Value) :
  (∀ l, l ∈ dom σ → σ' !! l = σ !! l) →
  reify depth σ v = OK x → reify depth σ' v = OK x.
Proof.
  intros Hext. revert v x. induction depth as [|n IH]; intros [s|l] x; simpl; try done.
  destruct (σ !! l) as [o|] eqn:Hl; [|done].
  rewrite (Hext l), Hl by (apply elem_of_dom; eauto).
  destruct o as [d|xs].
  - intros (a & Ha & ->)%rmap_OK. apply rmap_OK. exists a. split; [|done].
    apply collect_OK in Ha. apply collect_OK. apply map_eq. intros k.
    apply (f_equal (.!! k)) in Ha. rewrite !lookup_fmap in Ha |- *.
    destruct (d !! k) as [y|], (a !! k) as [z|]; simplify_eq/=; [|done].
    by rewrite (IH _ _ Ha).
  - intros (a & Ha & ->)%rmap_OK. apply rmap_OK. exists a. split; [|done].
    apply collect_list_OK in Ha. apply collect_list_OK.
    clear Hl. revert a Ha.
    induction xs as [|y xs IHxs]; intros [|z a] Ha; simplify_eq/=; [done|].
    rewrite (IH _ _ H). f_equal. by apply IHxs.
Qed.

End HeapValues.

Section HeapRootSnippet.

Import Heap.

Variable pm : val → val → M val.
Variable L : gset loc.

Lemma keeps_new_obj_True (o : obj) : keeps L (new_obj o) (λ _, True).
Proof. eapply keeps_weaken; [apply keeps_new_obj|done]. Qed.

Lemma keeps_merge_existing_part (self : self_t) part_name part_def :
  (∀ a b, keeps L (pm a b) (λ _, True)) →
  keeps L (Heap._merge_existing_part pm self part_name part_def)
    (λ v, ∃ l, v = Ref l ∧ l ∉ L).
Proof.
  intros Hpm. unfold Heap._merge_existing_part.
  eapply keeps_bind; [apply keeps_new_dict|]. intros no_parts _.
  eapply keeps_bind; [apply keeps_dict_get|]. intros parts _.
  eapply keeps_bind; [apply keeps_new_dict|]. intros no_part _.
  eapply keeps_bind; [apply keeps_dict_get|]. intros existing_part _.
  by apply keeps_merge_part.
Qed.


Lemma keeps_gen_new_parts (self : self_t) :
  (∀ a b, keeps L (pm a b) (λ _, True)) →
  keeps L (Heap._gen_new_parts pm self) (λ _, True).
Proof.
  intros Hpm. unfold Heap._gen_new_parts.
  destruct (negb _); [apply keeps_raise|].
  do 9 (eapply keeps_bind; [apply keeps_new_obj_True|]; intros ? _).
  eapply keeps_bind; [by apply keeps_merge_existing_part|]. intros ? _.
  eapply keeps_bind; [by apply keeps_merge_existing_part|]. intros ? _.
  apply keeps_new_obj_True.
Qed.


End HeapRootSnippet.

Section HeapRuns.

Import Heap.

Lemma mbind_run {A B : Type} (m : M A) (k : A → M B) σ a σ' :
  m σ = (OK a, σ') → mbind m k σ = k a σ'.
Proof. unfold mbind. by intros ->. Qed.



Section Missing.

Variable pm : val → val → M val.
Variable depth : nat.
Variable self : self_t.
Variable σ : store.
Variable ly : loc.
Variable document : gmap string val.

Hypothesis Hyaml : yaml_data self = Ref ly.
Hypothesis Hdocument : σ !! ly = Some (Dict document).
Hypothesis Hrequirements : requirements_txt_exists (project_root self) = false.
Hypothesis Hparts :
  match document !! "parts" with
  | None => 0 < depth
  | Some parts => ∃ m, reify depth σ parts = OK (VMap m)
  end.





Lemma extends_store_trans (σ1 σ2 σ3 : store) :
  extends_store σ1 σ2 → extends_store σ2 σ3 → extends_store σ1 σ3.
Proof.
  intros H12 H23 l Hl. rewrite H23, H12; [done..|].
  apply elem_of_dom. rewrite H12 by done. by apply elem_of_dom.
Qed.



End Missing.

End HeapRuns.

(** ** The part merge mutates neither argument *)

Section HeapPartMerge.

Import Heap.


(** On the sample store the part merge returns the new dict at location
    5: the two lists of [stage-packages] are merged into the new list at
    6, and the four objects of the store are as before.  The dict
    returned stands for the part that the merge of the two values
    gives. *)
Example merge_part_sample_store_merged :
  Heap._merge_part (Heap.apply_extension_property 2)
    (Ref 1%positive) (Ref 2%positive) sample_store
  = (OK (Ref 5%positive),
     <[6%positive := List [Imm (SStr "curl"); Imm (SStr "python3-venv")]]>
       (<[5%positive := Dict {[ "plugin" := Imm (SStr "python");
                                "stage-packages" := Ref 6%positive;
                                "source" := Imm (SStr ".") ]}]> sample_store)).
Proof. vm_compute. reflexivity. Qed.

End HeapPartMerge.

Example merge_part_sample_store_value :
  ∃ base_part new_part,
    Heap.reify 2 sample_store (Heap.Ref 1%positive) = OK (VMap base_part)
    ∧ Heap.reify 2 sample_store (Heap.Ref 2%positive) = OK (VMap new_part)
    ∧ rmap VMap (Flask._merge_part apply_extension_property (VMap base_part) (VMap new_part))
      = Heap.reify 2 (Heap._merge_part (Heap.apply_extension_property 2)
                        (Heap.Ref 1%positive) (Heap.Ref 2%positive) sample_store).2
          (Heap.Ref 5%positive).
Proof. eexists _, _. split_and!; vm_compute; reflexivity. Qed.

(** ** The root snippet without a requirements file *)




(** The sample document in the store stands for the sample document. *)
Example sample_document_store_value :
  Heap.reify 4 sample_document_store (Heap.Ref 1%positive) = OK (VMap sample_document).
Proof. vm_compute. reflexivity. Qed.

(** With a requirements.txt, the root snippet computed over the store
    for the sample document is a new dict that stands for the snippet
    computed on the document as a value, and the objects of the document
    are as before. *)
Example root_snippet_sample_document_store :
  ∃ l σ',
    Heap.get_root_snippet (Heap.apply_extension_property 4) 4
      (Heap.mk_self (Heap.Ref 1%positive) sample_root) sample_document_store
    = (OK (Heap.Ref l), σ')
    ∧ (l ∉ dom sample_document_store)
    ∧ Heap.reify 5 σ' (Heap.Ref l)
      = rmap VMap (Flask.get_root_snippet apply_extension_property
                     (Flask.mk sample_document sample_root))
    ∧ Heap.reify 4 σ' (Heap.Ref 1%positive) = OK (VMap sample_document).
Proof.
  eexists _, _. split; [vm_compute; reflexivity|].
  split_and!; [vm_compute; set_solver|vm_compute; reflexivity..].
Qed.

(** ** The root snippet of the empty document *)



(** ** Copies read back as the value they were built from *)

Section HeapCopies.

Import Heap.

Lemma extends_store_refl (σ : store) : extends_store σ σ.
Proof. by intros l _. Qed.

Lemma extends_store_new (σ : store) (o : obj) :
  extends_store σ (<[fresh (dom σ) := o]> σ).
Proof.
  intros l Hl. rewrite lookup_insert_ne; [done|].
  intros <-. by apply (is_fresh (dom σ)).
Qed.

Lemma reify_ext_list (d : nat) (σ σ' : store) (xs : list val) (a : list Value) :
  extends_store σ σ' →
  reify d σ <$> xs = OK <$> a → reify d σ' <$> xs = OK <$> a.
Proof.
  intros Hext. revert a.
  induction xs as [|y xs IH]; intros [|z a] Ha; simplify_eq/=; [done|].
  rewrite (reify_ext _ _ _ _ _ Hext H). f_equal. by apply IH.
Qed.

Lemma reify_ext_map (d : nat) (σ σ' : store) (m : gmap string val)
    (a : gmap string Value) :
  extends_store σ σ' →
  reify d σ <$> m = OK <$> a → reify d σ' <$> m = OK <$> a.
Proof.
  intros Hext Ha. apply map_eq. intros k.
  apply (f_equal (.!! k)) in Ha. rewrite !lookup_fmap in Ha |- *.
  destruct (m !! k) as [y|], (a !! k) as [z|]; simplify_eq/=; [|done].
  by rewrite (reify_ext _ _ _ _ _ Hext Ha).
Qed.

(** Reading to a greater depth gives the same value. *)
Lemma reify_depth_mono (d d' : nat) (σ : store) (v : val) (x : Value) :
  d ≤ d' → reify d σ v = OK x → reify d' σ v = OK x.
Proof.
  revert d' v x. induction d as [|n IH]; intros d' [s|l] x Hle; simpl; try done.
  - by destruct d'.
  - by destruct d'.
  - destruct d' as [|n']; [lia|]. simpl.
    destruct (σ !! l) as [[m|xs]|]; [| |done].
    + intros (a & Ha & ->)%rmap_OK. apply rmap_OK. exists a. split; [|done].
      apply collect_OK in Ha. apply collect_OK. apply map_eq. intros k.
      apply (f_equal (.!! k)) in Ha. rewrite !lookup_fmap in Ha |- *.
      destruct (m !! k) as [y|], (a !! k) as [z|]; simplify_eq/=; [|done].
      rewrite (IH n' y z); [done|lia|done].
    + intros (a & Ha & ->)%rmap_OK. apply rmap_OK. exists a. split; [|done].
      apply collect_list_OK in Ha. apply collect_list_OK.
      revert a Ha.
      induction xs as [|y xs IHxs]; intros [|z a] Ha; simplify_eq/=; [done|].
      rewrite (IH n' y z); [|lia|done]. f_equal. by apply IHxs.
Qed.

(** Building a value succeeds, leaves the objects of the store as they
    were, and gives a heap value that reads back as the value. *)
Lemma alloc_reify (v : Value) (σ : store) :
  ∃ x σ' d0, alloc v σ = (OK x, σ')
             ∧ extends_store σ σ'
             ∧ ∀ d, d0 ≤ d → reify d σ' x = OK v.
Proof.
  revert σ. induction v as [s|l IH|m IH] using Value_ind_nested; intros σ; simpl.
  - exists (Imm s), σ, 0. split_and!; [done|apply extends_store_refl|].
    by intros [|d] _.
  - assert (∀ σ, ∃ xs σ' d0,
              foldr (λ x rest, run y <- alloc x; run ys <- rest; ret (y :: ys))
                (ret []) l σ = (OK xs, σ')
              ∧ extends_store σ σ'
              ∧ ∀ d, d0 ≤ d → reify d σ' <$> xs = OK <$> l) as Hfold.
    { induction IH as [|x l Hx _ IHl]; intros σ1; simpl.
      - exists [], σ1, 0. split_and!; [done|apply extends_store_refl|done].
      - destruct (Hx σ1) as (y & σ2 & dy & Hy & Hext2 & Hread).
        rewrite (mbind_run _ _ _ _ _ Hy).
        destruct (IHl σ2) as (ys & σ3 & dys & Hys & Hext3 & Hreads).
        rewrite (mbind_run _ _ _ _ _ Hys).
        exists (y :: ys), σ3, (dy `max` dys).
        split_and!; [done|by eapply extends_store_trans|].
        intros d Hd. simpl. rewrite Hreads by lia. f_equal.
        eapply reify_ext; [exact Hext3|]. apply Hread. lia. }
    destruct (Hfold σ) as (xs & σ' & d0 & Hxs & Hext & Hread).
    rewrite (mbind_run _ _ _ _ _ Hxs). unfold new_obj.
    eexists _, _, (S d0). split_and!; [done| |].
    + eapply extends_store_trans; [exact Hext|apply extends_store_new].
    + intros [|d] Hd; [lia|]. simpl. rewrite lookup_insert_eq.
      apply rmap_OK. exists l. split; [|done]. apply collect_list_OK.
      eapply reify_ext_list; [apply extends_store_new|]. apply Hread. lia.
  - assert (∀ σ, ∃ d σ' d0,
              map_fold (λ k x (rest : M (gmap string val)),
                          run d <- rest; run y <- alloc x; ret (<[k := y]> d))
                (ret ∅) m σ = (OK d, σ')
              ∧ extends_store σ σ'
              ∧ ∀ n, d0 ≤ n → reify n σ' <$> d = OK <$> m) as Hfold.
    { revert IH.
      apply (map_fold_weak_ind
               (λ (r : M (gmap string val)) (m' : gmap string Value),
                  map_Forall (λ _ x, ∀ σ, ∃ y σ' d0, alloc x σ = (OK y, σ')
                     ∧ extends_store σ σ'
                     ∧ ∀ d, d0 ≤ d → reify d σ' y = OK x) m' →
                  ∀ σ, ∃ d σ' d0, r σ = (OK d, σ')
                     ∧ extends_store σ σ'
                     ∧ ∀ n, d0 ≤ n → reify n σ' <$> d = OK <$> m')).
      - intros _ σ1. exists ∅, σ1, 0.
        split_and!; [done|apply extends_store_refl|].
        intros n _. by rewrite !fmap_empty.
      - intros k x m' r Hk IHr Hall σ1.
        apply map_Forall_insert in Hall as [Hx Hall]; [|done].
        destruct (IHr Hall σ1) as (d & σ2 & dd & Hd & Hext2 & Hreads).
        rewrite (mbind_run _ _ _ _ _ Hd).
        destruct (Hx σ2) as (y & σ3 & dy & Hy & Hext3 & Hread).
        rewrite (mbind_run _ _ _ _ _ Hy).
        exists (<[k := y]> d), σ3, (dy `max` dd).
        split_and!; [done|by eapply extends_store_trans|].
        intros n Hn. rewrite !fmap_insert, Hread by lia. f_equal.
        eapply reify_ext_map; [exact Hext3|]. apply Hreads. lia. }
    destruct (Hfold σ) as (d & σ' & d0 & Hd & Hext & Hread).
    rewrite (mbind_run _ _ _ _ _ Hd). unfold new_obj.
    eexists _, _, (S d0). split_and!; [done| |].
    + eapply extends_store_trans; [exact Hext|apply extends_store_new].
    + intros [|n] Hn; [lia|]. simpl. rewrite lookup_insert_eq.
      apply rmap_OK. exists m. split; [|done]. apply collect_OK.
      eapply reify_ext_map; [apply extends_store_new|]. apply Hread. lia.
Qed.

(** A deep copy of a value that can be read is a heap value that reads
    back as the same value, in a store that holds the former objects
    unchanged. *)
Lemma deepcopy_reify (depth : nat) (v : val) (x : Value) (σ : store) :
  reify depth σ v = OK x →
  ∃ y σ' d0, deepcopy depth v σ = (OK y, σ')
             ∧ extends_store σ σ'
             ∧ ∀ d, d0 ≤ d → reify d σ' y = OK x.
Proof. intros Hread. unfold deepcopy. rewrite Hread. apply alloc_reify. Qed.

End HeapCopies.

(** The property merge over the store gives the value that the merge of
    the values that its arguments stand for gives, or fails as it
    does. *)
Lemma heap_apply_extension_property_reify (depth : nat) (a b : Heap.val)
    (x y : Value) (σ : Heap.store) :
  Heap.reify depth σ a = OK x → Heap.reify depth σ b = OK y →
  match apply_extension_property x y with
  | OK v =>
      ∃ r σ' d0, Heap.apply_extension_property depth a b σ = (OK r, σ')
                 ∧ Heap.extends_store σ σ'
                 ∧ ∀ d, d0 ≤ d → Heap.reify d σ' r = OK v
  | Err e => Heap.apply_extension_property depth a b σ = (Err e, σ)
  end.
Proof.
  intros Ha Hb. unfold Heap.apply_extension_property, apply_extension_property.
  rewrite Ha, Hb.
  destruct (PropertyMerger_merge false x y) as [v|e]; [apply alloc_reify|done].
Qed.
